(** * Expense tracker CLI: a shallow embedding of [scripts/expense-tracker.js]

    The program is a Node.js script.  Every invocation loads [expenses.json],
    runs one command handler and, for the commands that change the data,
    rewrites the file.  The embedding follows the script function by
    function, under the names of the script.

    - JavaScript numbers are IEEE 754 binary64 values.  Module [Num] models
      them exactly: a finite value is the integer [k] such that the value is
      [k * 2^-1074] (every finite binary64 value is such a multiple), and the
      arithmetic rounds to nearest, ties to even, as the language does.  The
      two zeros are identified: no operation of the script tells them apart.
    - JavaScript strings are modelled by [string], which holds the UTF-8
      encoding of the text.  White space ([trim], [parseFloat], [parseInt])
      is that of the language, the characters beyond ASCII included.
      [toLowerCase] and [padEnd] are those of the ASCII range; the statements
      that depend on them are about ASCII text ([Str.plain]).
    - The file system and the two output channels are an explicit [World];
      the handlers live in a state-and-exception monad over it.  The two
      JSON files are typed: [expenses.json] holds a list of records whose
      fields have the types the script gives them, [budgets.json] an object
      of numbers.  File writes are taken to succeed, and [JSON.stringify]
      followed by [JSON.parse] to give back the value written, which it does
      for finite numbers (the others are written as [null]); the statements
      that pin a number on file are about finite numbers ([Spec.finite]).
    - An object used as a map is an association list in insertion order;
      the statements about the category totals leave out the categories
      named after a property of [Object.prototype]
      ([Spec.prototypeNames]).
    - The clock is an explicit [Env]: one reading per run. *)

From Stdlib Require Import ZArith List String Ascii Bool Lia.
From Stdlib Require Import Permutation Sorted.
From Stdlib Require Import DecimalString.
From Stdlib Require Floats.
Import ListNotations.

Open Scope Z_scope.

(** ** Numbers *)

Module Num.

Inductive number : Type :=
| NaN
| Inf (negative : bool)
| Fin (k : Z).

(** [Fin one_k] is the number 1. *)
Definition one_k : Z := 2 ^ 1074.

(** Magnitudes from [2^1024] on (here scaled by [2^1074]) are not finite. *)
Definition huge_k : Z := 2 ^ 2098.

(** Round a magnitude to 53 significant bits, to nearest, ties to even.
    [a] is given in units of [2^-(1074+p)], [sticky] says that the exact
    value lies strictly between [a] and [a+1]; the result is in units of
    [2^-1074].  With [p = 0] and no sticky bit this rounds an exact multiple
    of [2^-1074].  The [n] low bits of [a] are dropped: [Z.shiftr a n] is
    the quotient of [a] by [2^n], [Z.land a (Z.ones n)] the remainder. *)
Definition round_mag (p : Z) (a : Z) (sticky : bool) : Z :=
  let n := Z.max p (Z.log2 a - 52) in
  if n =? 0 then a
  else
    let q := Z.shiftr a n in
    let r := Z.land a (Z.ones n) in
    let h := Z.shiftl 1 (n - 1) in
    let up := (h <? r) || ((r =? h) && (sticky || Z.odd q)) in
    Z.shiftl (if up then q + 1 else q) (n - p).

Definition finish (negative : bool) (m : Z) : number :=
  if huge_k <=? m then Inf negative
  else Fin (if negative then - m else m).

(** The number nearest to the integer multiple [k] of [2^-1074]. *)
Definition round_k (k : Z) : number :=
  finish (k <? 0) (round_mag 0 (Z.abs k) false).

(** The number nearest to the integer [z]. *)
Definition of_Z (z : Z) : number := round_k (z * one_k).

(** The number nearest to [m * 10^e] (or its opposite), [0 <= m]. *)
Definition of_decimal (negative : bool) (m e : Z) : number :=
  if 0 <=? e then finish negative (round_mag 0 (m * 10 ^ e * one_k) false)
  else
    let num := m * one_k * 4 in
    let den := 10 ^ (- e) in
    finish negative (round_mag 2 (num / den) (negb (num mod den =? 0))).

Definition zero : number := Fin 0.
Definition one : number := Fin one_k.

(** [x + y] *)
Definition add (x y : number) : number :=
  match x, y with
  | NaN, _ | _, NaN => NaN
  | Inf a, Inf b => if Bool.eqb a b then Inf a else NaN
  | Inf a, Fin _ | Fin _, Inf a => Inf a
  | Fin a, Fin b => round_k (a + b)
  end.

Definition neg (x : number) : number :=
  match x with
  | NaN => NaN
  | Inf a => Inf (negb a)
  | Fin k => Fin (- k)
  end.

(** [x - y] *)
Definition sub (x y : number) : number := add x (neg y).

(** [isNaN(x)] on a number. *)
Definition isNaN (x : number) : bool :=
  match x with NaN => true | _ => false end.

(** [x < y]: false as soon as one side is [NaN]. *)
Definition ltb (x y : number) : bool :=
  match x, y with
  | NaN, _ | _, NaN => false
  | Inf a, Inf b => a && negb b
  | Inf a, Fin _ => a
  | Fin _, Inf b => negb b
  | Fin a, Fin b => a <? b
  end.

(** [x === y] on numbers: [NaN] differs from itself. *)
Definition eqb (x y : number) : bool :=
  match x, y with
  | NaN, _ | _, NaN => false
  | Inf a, Inf b => Bool.eqb a b
  | Fin a, Fin b => a =? b
  | _, _ => false
  end.

(** [x <= y] *)
Definition leb (x y : number) : bool := ltb x y || eqb x y.

(** [x > y] *)
Definition gtb (x y : number) : bool := ltb y x.

(** Truthiness of a number: [0] and [NaN] are falsy. *)
Definition truthy (x : number) : bool :=
  match x with
  | NaN => false
  | Inf _ => true
  | Fin k => negb (k =? 0)
  end.

(** The integer a number is, when it is one: [k] is then a multiple of
    [2^1074], its 1074 low bits are zero. *)
Definition to_Z (x : number) : option Z :=
  match x with
  | Fin k => if Z.land k (Z.ones 1074) =? 0 then Some (Z.shiftr k 1074) else None
  | _ => None
  end.

(** [Math.max(x, y)]: [NaN] as soon as one argument is. *)
Definition max (x y : number) : number :=
  match x, y with
  | NaN, _ | _, NaN => NaN
  | _, _ => if ltb x y then y else x
  end.

(** [Math.max(...xs)]: the fold starts from [-Infinity]. *)
Definition max_list (xs : list number) : number :=
  fold_left max xs (Inf true).

End Num.

(** ** Strings *)

Module Str.

Local Open Scope string_scope.
Local Open Scope Z_scope.

(** The double quote character, as a one-character string. *)
Definition dquote : string := String (ascii_of_nat 34) EmptyString.

(** The line feed character, as a one-character string. *)
Definition newline : string := String (ascii_of_nat 10) EmptyString.

Definition code (c : ascii) : Z := Z.of_nat (nat_of_ascii c).

(** White space and line terminators of the ASCII range: TAB, LF, VT, FF,
    CR and SP. *)
Definition is_space (c : ascii) : bool :=
  let n := code c in ((9 <=? n) && (n <=? 13)) || (n =? 32).

Definition is_digit (c : ascii) : bool :=
  let n := code c in (48 <=? n) && (n <=? 57).

(** A string is truthy when it is not empty. *)
Definition truthy (s : string) : bool :=
  match s with EmptyString => false | String _ _ => true end.

(** The white space beyond ASCII, in UTF-8: U+00A0 takes two bytes. *)
Definition is_space2 (a b : ascii) : bool :=
  (code a =? 194) && (code b =? 160).

(** And three bytes each: U+1680; U+2000 to U+200A, U+2028, U+2029 and
    U+202F; U+205F; U+3000; U+FEFF. *)
Definition is_space3 (a b c : ascii) : bool :=
  let x := code a in
  let y := code b in
  let z := code c in
  ((x =? 225) && (y =? 154) && (z =? 128))
  || ((x =? 226) && (y =? 128)
      && (((128 <=? z) && (z <=? 138)) || (z =? 168) || (z =? 169) || (z =? 175)))
  || ((x =? 226) && (y =? 129) && (z =? 159))
  || ((x =? 227) && (y =? 128) && (z =? 128))
  || ((x =? 239) && (y =? 187) && (z =? 191)).

(** [s.trimStart()]: the white space and line terminators that [s] begins
    with are dropped, whether of one, two or three bytes. *)
Fixpoint trimStart (s : string) : string :=
  match s with
  | EmptyString => EmptyString
  | String a r1 =>
      if is_space a then trimStart r1
      else
        match r1 with
        | EmptyString => s
        | String b r2 =>
            if is_space2 a b then trimStart r2
            else
              match r2 with
              | EmptyString => s
              | String c r3 => if is_space3 a b c then trimStart r3 else s
              end
        end
  end.

(** [s.trimEnd()]: the longest suffix made of white space is dropped. *)
Fixpoint trimEnd (s : string) : string :=
  match s with
  | EmptyString => EmptyString
  | String c r =>
      if truthy (trimStart s) then String c (trimEnd r) else EmptyString
  end.

(** [s.trim()] *)
Definition trim (s : string) : string := trimEnd (trimStart s).

Definition lower (c : ascii) : ascii :=
  let n := code c in
  if (65 <=? n) && (n <=? 90) then ascii_of_nat (nat_of_ascii c + 32) else c.

(** [s.toLowerCase()] *)
Fixpoint toLowerCase (s : string) : string :=
  match s with
  | EmptyString => EmptyString
  | String c r => String (lower c) (toLowerCase r)
  end.

Fixpoint spaces (n : nat) : string :=
  match n with
  | O => EmptyString
  | S m => String " " (spaces m)
  end.

(** [s.padEnd(n)]: spaces are appended up to length [n]; a longer string
    is left as it is. *)
Definition padEnd (s : string) (n : nat) : string :=
  s ++ spaces (n - String.length s).

(** [xs.join(sep)] *)
Definition join (sep : string) (xs : list string) : string :=
  String.concat sep xs.

(** Text of the ASCII range: every byte is below 128. *)
Fixpoint plain (s : string) : bool :=
  match s with
  | EmptyString => true
  | String c r => (code c <? 128) && plain r
  end.

End Str.

(** ** Number to string, string to number *)

Module Conv.

Import Num.
Local Open Scope string_scope.
Local Open Scope Z_scope.

(** The decimal digits of a non-negative integer. *)
Definition digits (z : Z) : string :=
  NilZero.string_of_uint (N.to_uint (Z.to_N z)).

Fixpoint zeros (n : nat) : string :=
  match n with
  | O => EmptyString
  | S m => String "0" (zeros m)
  end.

(** [10^n <= k * 2^-1074] *)
Definition ge_pow10 (k n : Z) : bool :=
  if 0 <=? n then 10 ^ n * one_k <=? k else one_k <=? k * 10 ^ (- n).

Fixpoint find_exp (fuel : nat) (k n : Z) : Z :=
  if ge_pow10 k n then n
  else match fuel with
       | O => n
       | S f => find_exp f k (n - 1)
       end.

(** The integer [n] with [10^(n-1) <= k * 2^-1074 < 10^n], for a finite
    positive number.  The binary exponent gives an estimate that is off by
    one at most ([30103 / 100000] approximates the logarithm of 2 in base
    10); the search starts two above it. *)
Definition decimal_exponent (k : Z) : Z :=
  let n0 := (Z.log2 k - 1074) * 30103 / 100000 in
  find_exp 4 k (n0 + 2) + 1.

(** The decimal of [kd] digits nearest to the number that reads back as the
    number, if there is one: its digits [s] and its exponent [n].  [lo] is
    the integer part of the number scaled by [10^(kd-n)], [rem / den] its
    fractional part. *)
Definition candidate (k n kd : Z) : option (Z * Z) :=
  let x := n - kd in
  let num := if 0 <=? x then k else k * 10 ^ (- x) in
  let den := if 0 <=? x then one_k * 10 ^ x else one_k in
  let lo := if 0 <=? x then Z.shiftr k 1074 / 10 ^ x else Z.shiftr num 1074 in
  let hi := lo + 1 in
  let rem := num - lo * den in
  let ok s := match of_decimal false s x with
              | Fin k' => k' =? k
              | _ => false
              end in
  let lo_nearer := (2 * rem <? den) || ((2 * rem =? den) && Z.even lo) in
  let pick :=
    if ok lo && ok hi then Some (if lo_nearer then lo else hi)
    else if ok lo then Some lo
    else if ok hi then Some hi
    else None in
  match pick with
  | Some s => Some (if s =? 10 ^ kd then (10 ^ (kd - 1), n + 1) else (s, n))
  | None => None
  end.

Fixpoint shortest (fuel : nat) (k n kd : Z) : Z * Z * Z :=
  match candidate k n kd with
  | Some (s, n') => (s, n', kd)
  | None =>
      match fuel with
      | O => (Z.shiftr (k * 10 ^ (kd - n)) 1074, n, kd)
      | S f => shortest f k n (kd + 1)
      end
  end.

(** Number::toString for a positive finite number, radix 10: the shortest
    digits that read back as the number, laid out as the language does
    (plain digits up to 21 integer digits, a leading [0.] down to [1e-6],
    exponent notation beyond). *)
Definition pos_to_string (k : Z) : string :=
  let '(s, n, kd) := shortest 17 k (decimal_exponent k) 1 in
  let ds := digits s in
  if (kd <=? n) && (n <=? 21) then ds ++ zeros (Z.to_nat (n - kd))
  else if (0 <? n) && (n <=? 21) then
    substring 0 (Z.to_nat n) ds ++ "." ++ substring (Z.to_nat n) (Z.to_nat (kd - n)) ds
  else if (-6 <? n) && (n <=? 0) then "0." ++ zeros (Z.to_nat (- n)) ++ ds
  else
    let e := n - 1 in
    let es := (if e <? 0 then "-" else "+") ++ digits (Z.abs e) in
    if kd =? 1 then ds ++ "e" ++ es
    else substring 0 1 ds ++ "." ++ substring 1 (Z.to_nat (kd - 1)) ds ++ "e" ++ es.

(** [String(x)], [`${x}`] and [x.toString()] for a number. *)
Definition toString (x : number) : string :=
  match x with
  | NaN => "NaN"
  | Inf false => "Infinity"
  | Inf true => "-Infinity"
  | Fin k =>
      if k =? 0 then "0"
      else if k <? 0 then "-" ++ pos_to_string (- k)
      else pos_to_string k
  end.

(** An optional sign: whether it is a minus, and the rest. *)
Definition take_sign (s : string) : bool * string :=
  match s with
  | String "-" r => (true, r)
  | String "+" r => (false, r)
  | _ => (false, s)
  end.

(** The longest prefix of decimal digits, read after the digits [acc]
    already seen: the value, how many digits were read, and the rest. *)
Fixpoint take_digits (s : string) (acc : Z) (cnt : Z) : Z * Z * string :=
  match s with
  | String c r =>
      if Str.is_digit c then take_digits r (acc * 10 + (Str.code c - 48)) (cnt + 1)
      else (acc, cnt, s)
  | EmptyString => (acc, cnt, s)
  end.

(** The exponent part [e], [E] followed by a signed integer; when there
    are no digits after it there is no exponent part. *)
Definition take_exponent (s : string) : Z :=
  match s with
  | String c r =>
      if (Str.code c =? 101) || (Str.code c =? 69) then
        let '(eneg, r1) := take_sign r in
        let '(x, nx, _) := take_digits r1 0 0 in
        if nx =? 0 then 0 else if eneg then - x else x
      else 0
  | EmptyString => 0
  end.

(** [Number.parseFloat(s)]: leading white space is skipped, the longest
    prefix that is a decimal literal is read, what follows is ignored;
    [NaN] when there is no such prefix. *)
Definition parseFloat (s : string) : number :=
  let '(negative, s1) := take_sign (Str.trimStart s) in
  if prefix "Infinity" s1 then Inf negative
  else
    let '(i, ni, s2) := take_digits s1 0 0 in
    let '(m, nf, s3) :=
      match s2 with
      | String "." r => take_digits r i 0
      | _ => (i, 0, s2)
      end in
    if ni + nf =? 0 then NaN
    else of_decimal negative m (take_exponent s3 - nf).

Definition hex_value (c : ascii) : option Z :=
  let n := Str.code c in
  if (48 <=? n) && (n <=? 57) then Some (n - 48)
  else if (97 <=? n) && (n <=? 102) then Some (n - 87)
  else if (65 <=? n) && (n <=? 70) then Some (n - 55)
  else None.

Fixpoint take_hex (s : string) (acc : Z) (cnt : Z) : Z * Z :=
  match s with
  | String c r =>
      match hex_value c with
      | Some d => take_hex r (acc * 16 + d) (cnt + 1)
      | None => (acc, cnt)
      end
  | EmptyString => (acc, cnt)
  end.

(** [Number.parseInt(s)] with no radix: leading white space is skipped, a
    sign is read, then hexadecimal digits after [0x] or [0X] and decimal
    digits otherwise; what follows the digits is ignored; [NaN] when there
    is no digit. *)
Definition parseInt (s : string) : number :=
  let '(negative, s1) := take_sign (Str.trimStart s) in
  let '(v, cnt) :=
    match s1 with
    | String "0" (String "x" r) | String "0" (String "X" r) => take_hex r 0 0
    | _ => let '(v, cnt, _) := take_digits s1 0 0 in (v, cnt)
    end in
  if cnt =? 0 then NaN else of_Z (if negative then - v else v).

End Conv.

(** ** Calendar dates

    [new Date(s)] on a date-only string ([YYYY], [YYYY-MM], [YYYY-MM-DD])
    denotes midnight UTC of that day; [getFullYear] and [getMonth] read the
    date in local time.  Strings of another shape, which the script never
    writes, read as an invalid date here; the statements about the month
    filter are about records dated in these forms ([Spec.wellDated]). *)

Module Cal.

Local Open Scope string_scope.
Local Open Scope Z_scope.

Definition leap (y : Z) : bool :=
  (y mod 4 =? 0) && (negb (y mod 100 =? 0) || (y mod 400 =? 0)).

Definition daysInMonth (y m : Z) : Z :=
  if m =? 2 then (if leap y then 29 else 28)
  else if (m =? 4) || (m =? 6) || (m =? 9) || (m =? 11) then 30
  else 31.

Definition digit (c : ascii) : option Z :=
  if Str.is_digit c then Some (Str.code c - 48) else None.

Definition num2 (a b : ascii) : option Z :=
  match digit a, digit b with
  | Some x, Some y => Some (x * 10 + y)
  | _, _ => None
  end.

Definition num4 (a b c d : ascii) : option Z :=
  match num2 a b, num2 c d with
  | Some x, Some y => Some (x * 100 + y)
  | _, _ => None
  end.

Definition valid (y m d : Z) : option (Z * Z * Z) :=
  if (1 <=? m) && (m <=? 12) && (1 <=? d) && (d <=? daysInMonth y m)
  then Some (y, m, d) else None.

Definition hyphen (c : ascii) : bool := Str.code c =? 45.

(** The UTC calendar day a date-only string denotes. *)
Definition parseDateOnly (s : string) : option (Z * Z * Z) :=
  match list_ascii_of_string s with
  | [y1; y2; y3; y4] =>
      match num4 y1 y2 y3 y4 with
      | Some y => valid y 1 1
      | None => None
      end
  | [y1; y2; y3; y4; h1; m1; m2] =>
      match num4 y1 y2 y3 y4, num2 m1 m2 with
      | Some y, Some m => if hyphen h1 then valid y m 1 else None
      | _, _ => None
      end
  | [y1; y2; y3; y4; h1; m1; m2; h2; d1; d2] =>
      match num4 y1 y2 y3 y4, num2 m1 m2, num2 d1 d2 with
      | Some y, Some m, Some d =>
          if hyphen h1 && hyphen h2 then valid y m d else None
      | _, _, _ => None
      end
  | _ => None
  end.

Definition prev_day (ymd : Z * Z * Z) : Z * Z * Z :=
  let '(y, m, d) := ymd in
  if 1 <? d then (y, m, d - 1)
  else if 1 <? m then (y, m - 1, daysInMonth y (m - 1))
  else (y - 1, 12, 31).

(** The local calendar day at midnight UTC of [ymd], where local time is
    [offset] minutes ahead of UTC ([-1440 < offset < 1440]): the same day
    at or east of Greenwich, the day before west of it. *)
Definition localDay (offset : Z) (ymd : Z * Z * Z) : Z * Z * Z :=
  if offset <? 0 then prev_day ymd else ymd.

End Cal.

(** ** The script *)

Module Tracker.

Local Open Scope string_scope.
Local Open Scope Z_scope.

Record Expense : Type := mkExpense {
  id : Num.number;
  date : string;
  description : string;
  amount : Num.number;
  category : string
}.

(** What one run of the script reads from the clock: [today] is
    [formatDate(new Date())], the UTC calendar date in ISO form;
    [currentYear] is [new Date().getFullYear()]; [utcOffset] is the offset
    of local time from UTC, in minutes. *)
Record Env : Type := mkEnv {
  today : string;
  currentYear : Z;
  utcOffset : Z
}.

(** A JSON file: absent, present but unreadable or unparsable (with the
    message of the failure), or holding a value. *)
Inductive File (A : Type) : Type :=
| Absent
| Unreadable (why : string)
| Stored (content : A).

Arguments Absent {A}.
Arguments Unreadable {A} why.
Arguments Stored {A} content.

(** A plain object used as a map, with its keys in insertion order. *)
Definition Obj (V : Type) : Type := list (string * V).

(** The state a run works on: the two JSON files, the other files written
    so far (newest first), the names of the files written, in the order of
    the writes, and the lines printed on the two output channels. *)
Record World : Type := mkWorld {
  expensesFile : File (list Expense);
  budgetsFile : File (Obj Num.number);
  otherFiles : list (string * string);
  writes : list string;
  stdout : list string;
  stderr : list string
}.

(** The errors the handlers throw.  The script throws [Error] objects that
    differ by their message only; [message] gives it back. *)
Inductive Error : Type :=
| MissingArgument (text : string)
| InvalidAmount
| InvalidMonth
| NotFound (idArg : string).

Definition message (e : Error) : string :=
  match e with
  | MissingArgument text => text
  | InvalidAmount => "Amount must be a positive number"
  | InvalidMonth => "Month must be a number between 1 and 12"
  | NotFound idArg => "Expense with ID " ++ idArg ++ " not found"
  end.

Inductive Outcome (A : Type) : Type :=
| Return (a : A)
| Throw (e : Error).

Arguments Return {A} a.
Arguments Throw {A} e.

(** A computation that reads and writes the world and may throw. *)
Definition Cmd (A : Type) : Type := World -> Outcome A * World.

Definition ret {A : Type} (a : A) : Cmd A := fun w => (Return a, w).

Definition throw {A : Type} (e : Error) : Cmd A := fun w => (Throw e, w).

Definition bind {A B : Type} (c : Cmd A) (k : A -> Cmd B) : Cmd B :=
  fun w =>
    match c w with
    | (Return a, w') => k a w'
    | (Throw e, w') => (Throw e, w')
    end.

Notation "x <- c1 ;; c2" := (bind c1 (fun x => c2))
  (at level 61, c1 at next level, right associativity).
Notation "c1 ;; c2" := (bind c1 (fun _ => c2))
  (at level 61, right associativity).

(** [console.log(s)] *)
Definition log (s : string) : Cmd unit :=
  fun w => (Return tt,
            mkWorld (expensesFile w) (budgetsFile w) (otherFiles w) (writes w)
                    (stdout w ++ [s])%list (stderr w)).

(** [console.error(s)] *)
Definition logError (s : string) : Cmd unit :=
  fun w => (Return tt,
            mkWorld (expensesFile w) (budgetsFile w) (otherFiles w) (writes w)
                    (stdout w) (stderr w ++ [s])%list).

Definition DATA_FILE : string := "expenses.json".

Definition loadExpenses : Cmd (list Expense) :=
  fun w =>
    match expensesFile w with
    | Stored l => (Return l, w)
    | Absent => (Return [], w)
    | Unreadable why => (logError ("Error loading expenses: " ++ why) ;; ret []) w
    end.

(** The write is taken to succeed.  [JSON.stringify] writes a number that
    is not finite as [null]: the list on file is the list saved where its
    numbers are finite. *)
Definition saveExpenses (expenses : list Expense) : Cmd unit :=
  fun w => (Return tt,
            mkWorld (Stored expenses) (budgetsFile w) (otherFiles w)
                    (writes w ++ [DATA_FILE])%list (stdout w) (stderr w)).

Definition getNextId (expenses : list Expense) : Num.number :=
  match expenses with
  | [] => Num.one
  | _ :: _ => Num.add (Num.max_list (map id expenses)) Num.one
  end.

Definition formatCurrency (amount : Num.number) : string :=
  "$" ++ Conv.toString amount.

Definition validateAmount (amount : string) : Cmd Num.number :=
  let num := Conv.parseFloat amount in
  if Num.isNaN num || Num.leb num Num.zero then throw InvalidAmount
  else ret num.

(** [xs.findIndex(p)]: the first position where [p] holds, or [-1]. *)
Fixpoint findIndex {A : Type} (p : A -> bool) (xs : list A) : Z :=
  match xs with
  | [] => -1
  | x :: r =>
      if p x then 0
      else let i := findIndex p r in if i =? -1 then -1 else i + 1
  end.

Definition matchesId (idArg : string) (e : Expense) : bool :=
  Num.eqb (id e) (Conv.parseInt idArg).

(** [expenses.find(...)] hands back the object of the array itself; here
    the object is designated by its position in the array. *)
Definition findExpenseById (expenses : list Expense) (idArg : string)
  : Cmd nat :=
  let index := findIndex (matchesId idArg) expenses in
  if index =? -1 then throw (NotFound idArg) else ret (Z.to_nat index).

(** [args.indexOf(flag)] *)
Definition indexOf (args : list string) (flag : string) : Z :=
  findIndex (String.eqb flag) args.

Definition getArgValue (args : list string) (flag : string) : option string :=
  let index := indexOf args flag in
  if negb (index =? -1) && (index + 1 <? Z.of_nat (List.length args))
  then nth_error args (Z.to_nat (index + 1))
  else None.

(** The value of an argument when it is truthy: neither [null] nor the
    empty string. *)
Definition supplied (v : option string) : option string :=
  match v with
  | Some s => if Str.truthy s then Some s else None
  | None => None
  end.

(** [v || fallback] *)
Definition orElse (v : option string) (fallback : string) : string :=
  match supplied v with
  | Some s => s
  | None => fallback
  end.

Definition addExpense (env : Env) (args : list string) : Cmd unit :=
  expenses <- loadExpenses ;;
  let description := getArgValue args "--description" in
  let amount := getArgValue args "--amount" in
  let category := orElse (getArgValue args "--category") "General" in
  match supplied description with
  | None => throw (MissingArgument "Description is required (--description)")
  | Some description =>
      match supplied amount with
      | None => throw (MissingArgument "Amount is required (--amount)")
      | Some amount =>
          validatedAmount <- validateAmount amount ;;
          let expense :=
            {| id := getNextId expenses;
               date := today env;
               description := Str.trim description;
               amount := validatedAmount;
               category := Str.trim category |} in
          let expenses := (expenses ++ [expense])%list in
          saveExpenses expenses ;;
          log ("Expense added successfully (ID: " ++ Conv.toString (id expense) ++ ")")
      end
  end.

(** [xs[i] = f(xs[i])] *)
Fixpoint updateAt {A : Type} (i : nat) (f : A -> A) (xs : list A) : list A :=
  match xs, i with
  | [], _ => []
  | x :: r, O => f x :: r
  | x :: r, S j => x :: updateAt j f r
  end.

Definition setDescription (v : string) (e : Expense) : Expense :=
  mkExpense (id e) (date e) v (amount e) (category e).

Definition setAmount (v : Num.number) (e : Expense) : Expense :=
  mkExpense (id e) (date e) (description e) v (category e).

Definition setCategory (v : string) (e : Expense) : Expense :=
  mkExpense (id e) (date e) (description e) (amount e) v.

Definition updateExpense (args : list string) : Cmd unit :=
  expenses <- loadExpenses ;;
  let idArg := getArgValue args "--id" in
  let description := getArgValue args "--description" in
  let amount := getArgValue args "--amount" in
  let category := getArgValue args "--category" in
  match supplied idArg with
  | None => throw (MissingArgument "Expense ID is required (--id)")
  | Some idArg =>
      expense <- findExpenseById expenses idArg ;;
      let expenses :=
        match supplied description with
        | Some d => updateAt expense (setDescription (Str.trim d)) expenses
        | None => expenses
        end in
      expenses <-
        match supplied amount with
        | Some a =>
            v <- validateAmount a ;;
            ret (updateAt expense (setAmount v) expenses)
        | None => ret expenses
        end ;;
      let expenses :=
        match supplied category with
        | Some c => updateAt expense (setCategory (Str.trim c)) expenses
        | None => expenses
        end in
      saveExpenses expenses ;;
      log ("Expense updated successfully (ID: " ++ idArg ++ ")")
  end.

(** [xs.splice(i, 1)] *)
Fixpoint removeAt {A : Type} (i : nat) (xs : list A) : list A :=
  match xs, i with
  | [], _ => []
  | _ :: r, O => r
  | x :: r, S j => x :: removeAt j r
  end.

Definition deleteExpense (args : list string) : Cmd unit :=
  expenses <- loadExpenses ;;
  match supplied (getArgValue args "--id") with
  | None => throw (MissingArgument "Expense ID is required (--id)")
  | Some idArg =>
      let index := findIndex (matchesId idArg) expenses in
      if index =? -1 then throw (NotFound idArg)
      else
        let expenses := removeAt (Z.to_nat index) expenses in
        saveExpenses expenses ;;
        log "Expense deleted successfully"
  end.

Definition sameCategory (category : string) (e : Expense) : bool :=
  String.eqb (Str.toLowerCase (Tracker.category e)) (Str.toLowerCase category).

(** [xs.forEach(x => console.log(f(x)))] *)
Fixpoint logEach {A : Type} (f : A -> string) (xs : list A) : Cmd unit :=
  match xs with
  | [] => ret tt
  | x :: r => log (f x) ;; logEach f r
  end.

Definition listRow (expense : Expense) : string :=
  let id := Str.padEnd (Conv.toString (Tracker.id expense)) 2 in
  let date := Str.padEnd (Tracker.date expense) 10 in
  let description := Str.padEnd (Tracker.description expense) 26 in
  let amount := Str.padEnd (formatCurrency (Tracker.amount expense)) 9 in
  let category := Tracker.category expense in
  id ++ "  " ++ date ++ " " ++ description ++ " " ++ amount ++ " " ++ category.

Definition listExpenses (args : list string) : Cmd unit :=
  expenses <- loadExpenses ;;
  let category := getArgValue args "--category" in
  let filteredExpenses :=
    match supplied category with
    | Some c => filter (sameCategory c) expenses
    | None => expenses
    end in
  match filteredExpenses with
  | [] => log "No expenses found"
  | _ :: _ =>
      log "ID  Date       Description                Amount    Category" ;;
      log "--  ---------- -------------------------- --------- ----------" ;;
      logEach listRow filteredExpenses
  end.

Definition monthNames : list string :=
  [ "January"; "February"; "March"; "April"; "May"; "June"; "July";
    "August"; "September"; "October"; "November"; "December" ].

(** [`${monthNames[x]}`]: the name at an index of the array, and
    [undefined] for any other number. *)
Definition monthName (x : Num.number) : string :=
  match Num.to_Z x with
  | Some i => if 0 <=? i then nth (Z.to_nat i) monthNames "undefined" else "undefined"
  | None => "undefined"
  end.

(** [isNaN(monthNum) || monthNum < 1 || monthNum > 12] *)
Definition badMonth (monthNum : Num.number) : bool :=
  Num.isNaN monthNum || Num.ltb monthNum Num.one
  || Num.gtb monthNum (Num.of_Z 12).

(** The filter on the month: [new Date(expense.date)] read in local time
    is in the current year and in month [monthNum]. *)
Definition inMonth (env : Env) (monthNum : Num.number) (expense : Expense) : bool :=
  match Cal.parseDateOnly (date expense) with
  | Some ymd =>
      let '(y, m, _) := Cal.localDay (utcOffset env) ymd in
      (y =? currentYear env)
      && Num.eqb (Num.add (Num.of_Z (m - 1)) Num.one) monthNum
  | None => false
  end.

(** [xs.reduce((sum, expense) => sum + expense.amount, 0)] *)
Definition sumAmounts (expenses : list Expense) : Num.number :=
  fold_left (fun sum expense => Num.add sum (amount expense)) expenses Num.zero.

Fixpoint objGet {V : Type} (key : string) (o : Obj V) : option V :=
  match o with
  | [] => None
  | (k, v) :: r => if String.eqb k key then Some v else objGet key r
  end.

(** [o[key] = v]: an existing key keeps its place, a new one goes last. *)
Fixpoint objSet {V : Type} (key : string) (v : V) (o : Obj V) : Obj V :=
  match o with
  | [] => [(key, v)]
  | (k, x) :: r =>
      if String.eqb k key then (k, v) :: r else (k, x) :: objSet key v r
  end.

(** The keys that are array indices: canonical decimal numerals below
    [2^32 - 1]. *)
Definition arrayIndex (key : string) : option Z :=
  let '(v, cnt, rest) := Conv.take_digits key 0 0 in
  if (0 <? cnt) && negb (Str.truthy rest) && String.eqb (Conv.digits v) key
     && (v <? 4294967295)
  then Some v else None.

Definition isIndexKey {V : Type} (kv : string * V) : bool :=
  match arrayIndex (fst kv) with Some _ => true | None => false end.

Definition indexOfKey {V : Type} (kv : string * V) : Z :=
  match arrayIndex (fst kv) with Some i => i | None => 0 end.

Fixpoint insertByIndex {V : Type} (kv : string * V) (l : Obj V) : Obj V :=
  match l with
  | [] => [kv]
  | x :: r =>
      if indexOfKey kv <? indexOfKey x then kv :: l
      else x :: insertByIndex kv r
  end.

(** [Object.entries(o)]: the array-index keys in ascending order, then
    the other keys in insertion order. *)
Definition entries {V : Type} (o : Obj V) : list (string * V) :=
  (fold_right insertByIndex [] (filter isIndexKey o)
   ++ filter (fun kv => negb (isIndexKey kv)) o)%list.

(** Stable insertion of [x], which comes before the elements of [l]:
    [x] moves behind every leading [y] with [cmp(x, y) > 0]. *)
Fixpoint insertSorted {A : Type} (cmp : A -> A -> Num.number) (x : A)
  (l : list A) : list A :=
  match l with
  | [] => [x]
  | y :: r =>
      if Num.gtb (cmp x y) Num.zero then y :: insertSorted cmp x r
      else x :: l
  end.

(** [xs.sort(cmp)]: the sort is stable, which fixes its result whenever
    the comparator is consistent. *)
Definition sort {A : Type} (cmp : A -> A -> Num.number) (xs : list A) : list A :=
  fold_right (insertSorted cmp) [] xs.

(** [(o[key] || 0)] *)
Definition totalOr0 (key : string) (o : Obj Num.number) : Num.number :=
  match objGet key o with
  | Some v => if Num.truthy v then v else Num.zero
  | None => Num.zero
  end.

(** The loop that accumulates [categoryTotals]. *)
Definition categoryTotals (expenses : list Expense) : Obj Num.number :=
  fold_left
    (fun totals expense =>
       objSet (category expense)
              (Num.add (totalOr0 (category expense) totals) (amount expense))
              totals)
    expenses [].

(** The comparator [([, a], [, b]) => b - a]. *)
Definition byAmountDesc (x y : string * Num.number) : Num.number :=
  Num.sub (snd y) (snd x).

Definition breakdown (expenses : list Expense) : list (string * Num.number) :=
  sort byAmountDesc (entries (categoryTotals expenses)).

Definition breakdownRow (entry : string * Num.number) : string :=
  "  " ++ fst entry ++ ": " ++ formatCurrency (snd entry).

Definition showSummary (env : Env) (args : list string) : Cmd unit :=
  expenses <- loadExpenses ;;
  let month := getArgValue args "--month" in
  let category := getArgValue args "--category" in
  filtered <-
    match supplied month with
    | Some month =>
        let monthNum := Conv.parseInt month in
        if badMonth monthNum then throw InvalidMonth
        else ret (filter (inMonth env monthNum) expenses,
                  "Total expenses for " ++ monthName (Num.sub monthNum Num.one))
    | None => ret (expenses, "Total expenses")
    end ;;
  let '(filteredExpenses, summaryLabel) := filtered in
  let filteredExpenses :=
    match supplied category with
    | Some c => filter (sameCategory c) filteredExpenses
    | None => filteredExpenses
    end in
  let summaryLabel :=
    match supplied category with
    | Some c => summaryLabel ++ " (" ++ c ++ ")"
    | None => summaryLabel
    end in
  let total := sumAmounts filteredExpenses in
  log (summaryLabel ++ ": " ++ formatCurrency total) ;;
  match supplied category, filteredExpenses with
  | None, _ :: _ =>
      log (Str.newline ++ "Breakdown by category:") ;;
      logEach breakdownRow (breakdown filteredExpenses)
  | _, _ => ret tt
  end.

Definition loadBudgets : Cmd (Obj Num.number) :=
  fun w =>
    match budgetsFile w with
    | Stored b => (Return b, w)
    | Absent => (Return [], w)
    | Unreadable why => (logError ("Error loading budgets: " ++ why) ;; ret []) w
    end.

(** [fs.writeFileSync("budgets.json", ...)]; the write is taken to
    succeed, and as for [saveExpenses] the object on file is the object
    saved where its numbers are finite. *)
Definition saveBudgets (budgets : Obj Num.number) : Cmd unit :=
  fun w => (Return tt,
            mkWorld (expensesFile w) (Stored budgets) (otherFiles w)
                    (writes w ++ ["budgets.json"])%list (stdout w) (stderr w)).

Definition setBudget (env : Env) (args : list string) : Cmd unit :=
  let month := getArgValue args "--month" in
  let amount := getArgValue args "--amount" in
  match supplied month, supplied amount with
  | Some month, Some amount =>
      let monthNum := Conv.parseInt month in
      if badMonth monthNum then throw InvalidMonth
      else
        budgetAmount <- validateAmount amount ;;
        budgets <- loadBudgets ;;
        let key := Conv.toString (Num.of_Z (currentYear env)) ++ "-"
                   ++ Conv.toString monthNum in
        saveBudgets (objSet key budgetAmount budgets) ;;
        log ("Budget set for " ++ monthName (Num.sub monthNum Num.one) ++ ": "
             ++ formatCurrency budgetAmount) ;;
        expenses <- loadExpenses ;;
        let currentMonthExpenses := filter (inMonth env monthNum) expenses in
        let currentSpending := sumAmounts currentMonthExpenses in
        if Num.gtb currentSpending budgetAmount then
          log ("⚠️  WARNING: You have exceeded your budget by "
               ++ formatCurrency (Num.sub currentSpending budgetAmount))
        else
          let remaining := Num.sub budgetAmount currentSpending in
          log ("💰 Remaining budget: " ++ formatCurrency remaining)
  | _, _ => throw (MissingArgument "Both --month and --amount are required")
  end.

(** [fs.writeFileSync(filename, content)] for the export; the write is
    taken to succeed.  The content is recorded in [otherFiles] under the name
    given; [expensesFile] and [budgetsFile] stand for the two JSON files as
    long as no export is aimed at them. *)
Definition writeFile (filename content : string) : Cmd unit :=
  fun w => (Return tt,
            mkWorld (expensesFile w) (budgetsFile w)
                    ((filename, content) :: otherFiles w)
                    (writes w ++ [filename])%list (stdout w) (stderr w)).

Definition csvHeader : string :=
  "ID,Date,Description,Amount,Category" ++ Str.newline.

Definition csvRow (expense : Expense) : string :=
  Conv.toString (id expense) ++ "," ++ date expense ++ ","
  ++ Str.dquote ++ description expense ++ Str.dquote ++ ","
  ++ Conv.toString (amount expense) ++ "," ++ category expense.

Definition exportToCsv (args : list string) : Cmd unit :=
  expenses <- loadExpenses ;;
  let filename := orElse (getArgValue args "--file") "expenses.csv" in
  match expenses with
  | [] => log "No expenses to export"
  | _ :: _ =>
      let csvRows := Str.join Str.newline (map csvRow expenses) in
      let csvContent := csvHeader ++ csvRows in
      writeFile filename csvContent ;;
      log ("Expenses exported to " ++ filename)
  end.

Definition usage : string :=
  Str.join Str.newline
    [ "";
      "Expense Tracker - Manage your finances from the command line";
      "";
      "Usage:";
      "  expense-tracker <command> [options]";
      "";
      "Commands:";
      "  add       Add a new expense";
      "  update    Update an existing expense";
      "  delete    Delete an expense";
      "  list      List all expenses";
      "  summary   Show expense summary";
      "  budget    Set monthly budget";
      "  export    Export expenses to CSV";
      "";
      "Examples:";
      "  expense-tracker add --description " ++ Str.dquote ++ "Lunch" ++ Str.dquote
        ++ " --amount 20 --category " ++ Str.dquote ++ "Food" ++ Str.dquote;
      "  expense-tracker list --category " ++ Str.dquote ++ "Food" ++ Str.dquote;
      "  expense-tracker summary --month 8";
      "  expense-tracker update --id 1 --description " ++ Str.dquote
        ++ "Business Lunch" ++ Str.dquote ++ " --amount 25";
      "  expense-tracker delete --id 2";
      "  expense-tracker budget --month 8 --amount 1000";
      "  expense-tracker export --file " ++ Str.dquote ++ "august-expenses.csv"
        ++ Str.dquote;
      "    " ].

(** The handler of a command, if it is one. *)
Definition handler (env : Env) (command : string) (args : list string)
  : option (Cmd unit) :=
  if String.eqb command "add" then Some (addExpense env args)
  else if String.eqb command "update" then Some (updateExpense args)
  else if String.eqb command "delete" then Some (deleteExpense args)
  else if String.eqb command "list" then Some (listExpenses args)
  else if String.eqb command "summary" then Some (showSummary env args)
  else if String.eqb command "budget" then Some (setBudget env args)
  else if String.eqb command "export" then Some (exportToCsv args)
  else None.

(** One run of the script on the arguments [args] ([process.argv] from
    its third element on): the exit code and the world it leaves. *)
Definition main (env : Env) (args : list string) (w : World) : Z * World :=
  match args with
  | [] => (0, snd (log usage w))
  | command :: _ =>
      match handler env command args with
      | Some run =>
          match run w with
          | (Return _, w') => (0, w')
          | (Throw e, w') => (1, snd (logError ("Error: " ++ message e) w'))
          end
      | None =>
          (1, snd ((logError ("Unknown command: " ++ command) ;;
                    log ("Run " ++ Str.dquote ++ "expense-tracker" ++ Str.dquote
                         ++ " without arguments to see usage information."))
                     w))
      end
  end.

End Tracker.

(** * The vocabulary of the specification

    What the statements below need beyond the script itself: the store a
    run starts from, runs of several [add] commands, and the notions the
    specification uses in words (the next identifier, equality up to case,
    the lines of the export, a month argument, a date in a month). *)

Module Spec.

Import Tracker.
Local Open Scope string_scope.
Local Open Scope list_scope.
Local Open Scope Z_scope.

(** The records a run starts from: what [loadExpenses] returns. *)
Definition store (w : World) : list Expense :=
  match expensesFile w with
  | Stored l => l
  | _ => []
  end.

(** The world once the store is loaded: a file that cannot be read has been
    reported on the error channel. *)
Definition afterLoad (w : World) : World := snd (loadExpenses w).

(** A sequence of [add] commands, each run with its own reading of the clock. *)
Fixpoint addAll (cmds : list (Env * list string)) (w : World) : World :=
  match cmds with
  | [] => w
  | (env, args) :: rest => addAll rest (snd (addExpense env args w))
  end.

(** The integers that binary64 represents without gaps. *)
Definition safe (z : Z) : Prop := - 2 ^ 53 <= z <= 2 ^ 53.

(** [z] is the identifier that follows the identifiers [zs]: 1 when there is
    none, one more than their maximum otherwise. *)
Definition isNext (zs : list Z) (z : Z) : Prop :=
  match zs with
  | [] => z = 1
  | _ :: _ => In (z - 1) zs /\ Forall (fun x => x <= z - 1) zs
  end.

(** [assigned before new]: the identifiers [new] were assigned one after the
    other, each being the next one at its time. *)
Inductive assigned : list Z -> list Z -> Prop :=
| assigned_nil (before : list Z) : assigned before []
| assigned_cons (before : list Z) (z : Z) (new : list Z) :
    isNext before z -> assigned (before ++ [z]) new ->
    assigned before (z :: new).

(** The record a successful [add] appends. *)
Definition added (env : Env) (args : list string) (w : World) (e : Expense) : Prop :=
  exists d a,
    supplied (getArgValue args "--description") = Some d
    /\ supplied (getArgValue args "--amount") = Some a
    /\ e = mkExpense (getNextId (store w)) (today env) (Str.trim d)
                     (Conv.parseFloat a)
                     (Str.trim (orElse (getArgValue args "--category") "General")).

(** The record [e] with the fields overwritten for which [update] got an
    argument. *)
Definition updated (args : list string) (e : Expense) : Expense :=
  {| id := id e;
     date := date e;
     description :=
       match supplied (getArgValue args "--description") with
       | Some d => Str.trim d
       | None => description e
       end;
     amount :=
       match supplied (getArgValue args "--amount") with
       | Some a => Conv.parseFloat a
       | None => amount e
       end;
     category :=
       match supplied (getArgValue args "--category") with
       | Some c => Str.trim c
       | None => category e
       end |}.







(** A number that JSON can hold: [JSON.stringify] writes the others as
    [null].  A record whose numbers are such. *)
Definition finite (x : Num.number) : Prop :=
  match x with
  | Num.Fin _ => True
  | _ => False
  end.

Definition storable (e : Expense) : Prop := finite (id e) /\ finite (amount e).

(** A record whose date and description are ASCII text, which [padEnd]
    pads as the script does; and one whose category is. *)
Definition plainRow (e : Expense) : Prop :=
  Str.plain (date e) = true /\ Str.plain (description e) = true.

Definition plainCategory (e : Expense) : Prop := Str.plain (category e) = true.




(** The flags the commands read. *)
Definition flagNames : list string :=
  [ "--description"; "--amount"; "--category"; "--id"; "--month"; "--file" ].

(** The month argument parses as an integer between 1 and 12. *)
Definition parsesAsMonth (s : string) : Prop :=
  exists z, Conv.parseInt s = Num.of_Z z /\ 1 <= z <= 12.








(** One iteration of the loop of [categoryTotals]. *)
Definition step (totals : Obj Num.number) (expense : Expense) : Obj Num.number :=
  objSet (category expense)
         (Num.add (totalOr0 (category expense) totals) (amount expense)) totals.

(** Amounts that are whole multiples of [2^(t-1074)]: how many units a
    number is, and the units of a list.  With [t = 1074] the unit is 1, with
    [t = 1072] a quarter. *)
Definition units (t : Z) (x : Num.number) : Z :=
  match x with
  | Num.Fin k => k / 2 ^ t
  | _ => 0
  end.

Definition wholeUnits (t : Z) (x : Num.number) : Prop :=
  exists m, 0 <= m /\ x = Num.Fin (m * 2 ^ t).

Definition totalUnits (t : Z) (xs : list Num.number) : Z :=
  fold_right (fun x acc => units t x + acc) 0 xs.

End Spec.

(** * Sample runs

    The clock, the stores and the command lines the witnesses and the
    counterexamples are about. *)

Module Sample.

Import Tracker.
Local Open Scope string_scope.
Local Open Scope list_scope.
Local Open Scope Z_scope.

(** 15 August 2024, local time being UTC. *)
Definition env0 : Env := mkEnv "2024-08-15" 2024 0.

(** The same day, five hours behind UTC. *)
Definition envWest : Env := mkEnv "2024-08-15" 2024 (-300).

(** A world whose store holds [l] and nothing else. *)
Definition worldOf (l : list Expense) : World := mkWorld (Stored l) Absent [] [] [] [].

Definition lunch : Expense :=
  mkExpense (Num.of_Z 1) "2024-08-15" "Lunch" (Conv.parseFloat "20") "Food".

Definition taxi : Expense :=
  mkExpense (Num.of_Z 2) "2024-08-16" "Taxi" (Conv.parseFloat "12.5") "Travel".

Definition lunchAgain : Expense :=
  mkExpense (Num.of_Z 1) "2024-08-17" "Lunch again" (Conv.parseFloat "8") "Food".

Definition big : Expense :=
  mkExpense (Num.of_Z (2 ^ 53)) "2024-08-15" "Lunch" (Conv.parseFloat "20") "Food".




Definition firstOfAugust : Expense :=
  mkExpense (Num.of_Z 1) "2024-08-01" "Rent" (Conv.parseFloat "5") "Home".

Definition firstOfSeptember : Expense :=
  mkExpense (Num.of_Z 2) "2024-09-01" "Rent" (Conv.parseFloat "7") "Home".

Definition addDinner : list string :=
  ["add"; "--description"; "Dinner"; "--amount"; "10"; "--category"; "Food"].

Definition addNothing : list string :=
  ["add"; "--description"; "Nothing"; "--amount"; "0"].

Definition addMinus5 : list string := ["add"; "--description"; "Lunch"; "--amount"; "-5"].

Definition addMinus5NoDescription : list string := ["add"; "--amount"; "-5"].

Definition addEmptyAmount : list string := ["add"; "--description"; "Lunch"; "--amount"; ""].

Definition update7 : list string := ["update"; "--id"; "7"; "--amount"; "5"].

Definition updateEmptyId : list string := ["update"; "--id"; ""; "--amount"; "5"].


Definition updateTaxi : list string :=
  ["update"; "--id"; "2"; "--description"; " Cab "; "--amount"; "15"].

Definition updateBad : list string :=
  ["update"; "--id"; "1"; "--description"; "Brunch"; "--amount"; "-5"].

Definition updateEmptyDescription : list string :=
  ["update"; "--id"; "1"; "--description"; ""].

Definition listFood : list string := ["list"; "--category"; "FOOD"].


Definition summaryAugust : list string := ["summary"; "--month"; "8"].

Definition summary13 : list string := ["summary"; "--month"; "13"].

Definition summaryEmptyMonth : list string := ["summary"; "--month"; ""].

Definition budget13 : list string := ["budget"; "--month"; "13"; "--amount"; "100"].

Definition budget13NoAmount : list string := ["budget"; "--month"; "13"].

Definition addAmountTwice : list string :=
  ["add"; "--description"; "Lunch"; "--amount"; "5"; "--amount"].

End Sample.

(** * Effects of a run

    What the statements about whole runs need: the files a run may touch,
    what loading reports, the budgets on file, and a few predicates on
    arguments. *)

Module Effects.

Import Tracker Spec.
Local Open Scope string_scope.
Local Open Scope list_scope.
Local Open Scope Z_scope.

(** The run from [w] to [w'] wrote no file: the two JSON files and the other
    files are as they were, and no write took place. *)
Definition sameFiles (w w' : World) : Prop :=
  expensesFile w' = expensesFile w
  /\ budgetsFile w' = budgetsFile w
  /\ otherFiles w' = otherFiles w
  /\ writes w' = writes w.

(** What [loadExpenses] prints on the error channel. *)
Definition loadError (w : World) : list string :=
  match expensesFile w with
  | Unreadable why => [("Error loading expenses: " ++ why)%string]
  | _ => []
  end.

(** The budgets a run starts from: what the [budget] command loads. *)
Definition budgets (w : World) : Obj Num.number :=
  match budgetsFile w with
  | Stored b => b
  | _ => []
  end.

Definition budgetsError (w : World) : list string :=
  match budgetsFile w with
  | Unreadable why => [("Error loading budgets: " ++ why)%string]
  | _ => []
  end.

(** The world [w] with another [budgets.json]. *)
Definition withBudgets (b : File (Obj Num.number)) (w : World) : World :=
  mkWorld (expensesFile w) b (otherFiles w) (writes w) (stdout w) (stderr w).

(** An optional argument that is absent, comes last without a value, or is
    the empty string. *)
Definition noValue (v : option string) : Prop := v = None \/ v = Some "".

(** The amount argument parses to a number above zero. *)
Definition validAmount (a : string) : Prop :=
  Num.ltb Num.zero (Conv.parseFloat a) = true.

(** The record [add] builds from a description [d] and an amount [a]. *)
Definition newRecord (env : Env) (args : list string) (w : World) (d a : string) : Expense :=
  mkExpense (getNextId (store w)) (today env) (Str.trim d) (Conv.parseFloat a)
            (Str.trim (orElse (getArgValue args "--category") "General")).

(** A string of white space only. *)
Fixpoint blank (s : string) : bool :=
  match s with
  | EmptyString => true
  | String c r => Str.is_space c && blank r
  end.

(** The key of a month of the current year in [budgets.json]. *)
Definition budgetKey (env : Env) (z : Z) : string :=
  Conv.toString (Num.of_Z (currentYear env)) ++ "-" ++ Conv.toString (Num.of_Z z).

(** What the [budget] command takes for the spending of month [z]. *)
Definition monthSpending (env : Env) (z : Z) (w : World) : Num.number :=
  sumAmounts (filter (inMonth env (Num.of_Z z)) (store w)).

(** The commands of the [switch] of [main]. *)
Definition commandNames : list string :=
  ["add"; "update"; "delete"; "list"; "summary"; "budget"; "export"].

(** The first line of the table that [list] prints. *)
Definition header : string :=
  "ID  Date       Description                Amount    Category".

End Effects.

(** * Further sample runs *)

Module Cases.

Import Tracker.
Local Open Scope string_scope.
Local Open Scope list_scope.
Local Open Scope Z_scope.

(** A world whose [expenses.json] cannot be parsed. *)
Definition brokenWorld : World :=
  mkWorld (Unreadable "Unexpected end of JSON input") Absent [] [] [] [].

Definition addCoffee : list string := ["add"; "--description"; "Coffee"; "--amount"; "3.5"].

Definition addBlank : list string := ["add"; "--description"; "   "; "--amount"; "10"].


Definition delete7 : list string := ["delete"; "--id"; "7"].

Definition listAll : list string := ["list"].


Definition budgetAugust : list string := ["budget"; "--month"; "8"; "--amount"; "100"].

Definition budgetAugustAgain : list string := ["budget"; "--month"; "08"; "--amount"; "250"].

End Cases.

(** * The kernel's primitive floats, as a reference for [Num] *)

Module FloatRef.

Import Stdlib.Floats.Floats.
Import Num.

(** The number a primitive float denotes. *)
Definition of_float (f : float) : number :=
  match Prim2SF f with
  | S754_zero _ => Fin 0
  | S754_infinity s => Inf s
  | S754_nan => NaN
  | S754_finite s m e =>
      Fin ((if s then - Z.pos m else Z.pos m) * 2 ^ (e + 1074))
  end.

End FloatRef.

(** * Numbers: exact cases of the arithmetic, and the order *)

Module NumFacts.

Import Num Spec.

Lemma one_k_eq : one_k = 2 ^ 1074.
Proof. reflexivity. Qed.

Lemma one_k_pos : 0 < one_k.
Proof. rewrite one_k_eq. apply Z.pow_pos_nonneg; lia. Qed.

(** [round_mag] in terms of quotient and remainder. *)
Lemma round_mag_arith (p a : Z) (s : bool) :
  0 <= p ->
  round_mag p a s =
  let n := Z.max p (Z.log2 a - 52) in
  if n =? 0 then a
  else
    let q := a / 2 ^ n in
    let r := a mod 2 ^ n in
    let h := 2 ^ (n - 1) in
    let up := (h <? r) || ((r =? h) && (s || Z.odd q)) in
    (if up then q + 1 else q) * 2 ^ (n - p).
Proof.
  intros Hp. unfold round_mag. cbv zeta.
  set (n := Z.max p (Z.log2 a - 52)).
  destruct (Z.eqb_spec n 0) as [_|Hn]; [reflexivity|].
  assert (0 < n) by lia.
  rewrite Z.shiftr_div_pow2, Z.land_ones by lia.
  rewrite !Z.shiftl_mul_pow2 by lia.
  rewrite Z.mul_1_l. reflexivity.
Qed.

(** A magnitude whose dropped bits are all zero is not changed. *)
Lemma round_mag_exact (a : Z) :
  0 <= a ->
  a mod 2 ^ (Z.max 0 (Z.log2 a - 52)) = 0 ->
  round_mag 0 a false = a.
Proof.
  intros Ha Hmod. rewrite round_mag_arith by lia. cbv zeta.
  set (n := Z.max 0 (Z.log2 a - 52)) in *.
  destruct (Z.eqb_spec n 0) as [|Hn]; [reflexivity|].
  assert (0 < n) by lia.
  assert (0 < 2 ^ (n - 1)) by (apply Z.pow_pos_nonneg; lia).
  rewrite Hmod.
  replace (2 ^ (n - 1) <? 0) with false by (symmetry; apply Z.ltb_ge; lia).
  replace (0 =? 2 ^ (n - 1)) with false by (symmetry; apply Z.eqb_neq; lia).
  cbn [orb andb]. rewrite Z.sub_0_r.
  assert (0 < 2 ^ n) by (apply Z.pow_pos_nonneg; lia).
  rewrite Z.mul_comm. symmetry.
  rewrite (Z.div_mod a (2 ^ n)) at 1 by lia. lia.
Qed.

Lemma scaled_mod (m : Z) :
  0 <= m <= 2 ^ 53 ->
  (m * one_k) mod 2 ^ (Z.max 0 (Z.log2 (m * one_k) - 52)) = 0.
Proof.
  intros Hm. rewrite one_k_eq.
  destruct (Z.eq_dec m 0) as [->|Hz].
  { rewrite Z.mul_0_l. apply Z.mod_0_l. 
    assert (0 < 2 ^ (Z.max 0 (Z.log2 0 - 52))) by (apply Z.pow_pos_nonneg; lia). lia. }
  rewrite Z.log2_mul_pow2 by lia.
  assert (Hl : 0 <= Z.log2 m) by apply Z.log2_nonneg.
  rewrite Z.max_r by lia.
  destruct (Z.eq_dec m (2 ^ 53)) as [->|Hne].
  - rewrite Z.log2_pow2 by lia.
    rewrite <- Z.pow_add_r by lia.
    replace (53 + 1074) with (52 + (1074 + 53 - 52)) by lia.
    rewrite Z.pow_add_r by lia. apply Z.mod_mul.
    assert (0 < 2 ^ (1074 + 53 - 52)) by (apply Z.pow_pos_nonneg; lia). lia.
  - assert (Z.log2 m < 53) by (apply Z.log2_lt_pow2; lia).
    set (n := 1074 + Z.log2 m - 52).
    replace 1074 with ((1074 - n) + n) at 1 by lia.
    rewrite Z.pow_add_r by lia. rewrite Z.mul_assoc. apply Z.mod_mul.
    assert (0 < 2 ^ n) by (apply Z.pow_pos_nonneg; lia). lia.
Qed.

Lemma scaled_below_huge (m : Z) : 0 <= m <= 2 ^ 53 -> m * one_k < huge_k.
Proof.
  intros Hm. unfold huge_k. rewrite one_k_eq.
  replace 2098 with (1024 + 1074) by lia. rewrite Z.pow_add_r by lia.
  assert (0 < 2 ^ 1074) by (apply Z.pow_pos_nonneg; lia).
  assert (2 ^ 53 < 2 ^ 1024) by (apply Z.pow_lt_mono_r; lia).
  nia.
Qed.

(** Integers up to [2^53] in magnitude are numbers, and arithmetic on
    them is the arithmetic of integers. *)
Lemma of_Z_exact (z : Z) : safe z -> of_Z z = Fin (z * one_k).
Proof.
  unfold safe. intros Hz. unfold of_Z, round_k.
  pose proof one_k_pos as Hu.
  assert (Habs : Z.abs (z * one_k) = Z.abs z * one_k).
  { rewrite Z.abs_mul, (Z.abs_eq one_k) by lia. reflexivity. }
  rewrite Habs.
  assert (Hm : 0 <= Z.abs z <= 2 ^ 53) by lia.
  rewrite round_mag_exact; [| nia | apply scaled_mod; exact Hm].
  unfold finish.
  pose proof (scaled_below_huge _ Hm).
  replace (huge_k <=? Z.abs z * one_k) with false by (symmetry; apply Z.leb_gt; lia).
  destruct (Z.ltb_spec (z * one_k) 0); f_equal; nia.
Qed.

Lemma one_is_of_Z : one = of_Z 1.
Proof.
  rewrite of_Z_exact by (unfold safe; lia). rewrite Z.mul_1_l. reflexivity.
Qed.

Lemma add_of_Z (a b : Z) :
  safe a -> safe b -> add (of_Z a) (of_Z b) = of_Z (a + b).
Proof.
  intros Ha Hb. rewrite (of_Z_exact a Ha), (of_Z_exact b Hb).
  unfold of_Z. cbn [add]. f_equal. lia.
Qed.

Lemma of_Z_inj (a b : Z) : safe a -> safe b -> of_Z a = of_Z b -> a = b.
Proof.
  intros Ha Hb. rewrite (of_Z_exact a Ha), (of_Z_exact b Hb).
  intros H. injection H as H. pose proof one_k_pos. nia.
Qed.

Lemma ltb_of_Z (a b : Z) :
  safe a -> safe b -> ltb (of_Z a) (of_Z b) = (a <? b).
Proof.
  intros Ha Hb. rewrite (of_Z_exact a Ha), (of_Z_exact b Hb). cbn [ltb].
  pose proof one_k_pos.
  destruct (Z.ltb_spec a b); [apply Z.ltb_lt | apply Z.ltb_ge]; nia.
Qed.

Lemma eqb_of_Z (a b : Z) :
  safe a -> safe b -> eqb (of_Z a) (of_Z b) = (a =? b).
Proof.
  intros Ha Hb. rewrite (of_Z_exact a Ha), (of_Z_exact b Hb). cbn [eqb].
  pose proof one_k_pos.
  destruct (Z.eqb_spec a b); [apply Z.eqb_eq | apply Z.eqb_neq]; nia.
Qed.

Lemma max_of_Z (a b : Z) :
  safe a -> safe b -> max (of_Z a) (of_Z b) = of_Z (Z.max a b).
Proof.
  intros Ha Hb. unfold max. rewrite ltb_of_Z by assumption.
  rewrite (of_Z_exact a Ha), (of_Z_exact b Hb).
  destruct (Z.ltb_spec a b).
  - rewrite Z.max_r by lia. symmetry. apply of_Z_exact. assumption.
  - rewrite Z.max_l by lia. symmetry. apply of_Z_exact. assumption.
Qed.

Lemma fold_max_of_Z (zs : list Z) (m : Z) :
  safe m -> Forall safe zs ->
  fold_left max (map of_Z zs) (of_Z m) = of_Z (fold_left Z.max zs m)
  /\ safe (fold_left Z.max zs m).
Proof.
  intros Hm Hzs. revert m Hm. induction Hzs as [|z zs Hz _ IH]; intros m Hm.
  - split; [reflexivity | assumption].
  - cbn [map fold_left]. rewrite max_of_Z by assumption.
    apply IH. unfold safe in *. lia.
Qed.

Lemma max_list_of_Z (z : Z) (zs : list Z) :
  Forall safe (z :: zs) ->
  max_list (map of_Z (z :: zs)) = of_Z (fold_left Z.max zs z).
Proof.
  intros H. inversion H as [|? ? Hz Hzs]; subst.
  unfold max_list. cbn [map fold_left].
  assert (E : max (Inf true) (of_Z z) = of_Z z).
  { rewrite (of_Z_exact z Hz). reflexivity. }
  rewrite E. apply fold_max_of_Z; assumption.
Qed.

(** The maximum of a list of integers. *)
Lemma fold_max_spec (zs : list Z) (m : Z) :
  let r := fold_left Z.max zs m in
  (r = m \/ In r zs) /\ m <= r /\ Forall (fun x => x <= r) zs.
Proof.
  revert m. induction zs as [|z zs IH]; intros m; cbn [fold_left].
  - repeat split; [left; reflexivity | lia | constructor].
  - specialize (IH (Z.max m z)). cbn zeta in IH.
    destruct IH as (Hin & Hle & Hall).
    set (r := fold_left Z.max zs (Z.max m z)) in *.
    repeat split.
    + destruct Hin as [Hin|Hin]; [|right; right; exact Hin].
      destruct (Z.max_spec m z) as [[_ E]|[_ E]]; rewrite E in Hin.
      * right. left. symmetry. exact Hin.
      * left. exact Hin.
    + lia.
    + constructor; [lia | exact Hall].
Qed.

Lemma round_mag_nonneg (a : Z) (s : bool) : 0 <= a -> 0 <= round_mag 0 a s.
Proof.
  intros Ha. rewrite round_mag_arith by lia. cbv zeta.
  set (n := Z.max 0 (Z.log2 a - 52)).
  destruct (Z.eqb_spec n 0) as [_|_]; [assumption|].
  assert (0 <= a / 2 ^ n).
  { apply Z.div_pos; [assumption | apply Z.pow_pos_nonneg; lia]. }
  pose proof (Z.pow_nonneg 2 (n - 0)).
  destruct (_ || _); nia.
Qed.

(** Rounding never goes below the leading power of two. *)
Lemma round_mag_lower (a : Z) : 0 < a -> 2 ^ Z.log2 a <= round_mag 0 a false.
Proof.
  intros Ha. rewrite round_mag_arith by lia. cbv zeta.
  destruct (Z.log2_spec a Ha) as (Hlo & _).
  set (n := Z.max 0 (Z.log2 a - 52)).
  destruct (Z.eqb_spec n 0) as [_|Hn]; [assumption|].
  assert (En : n = Z.log2 a - 52) by lia.
  assert (Hpow : 2 ^ Z.log2 a = 2 ^ 52 * 2 ^ n).
  { rewrite <- Z.pow_add_r by lia. f_equal. lia. }
  assert (H2n : 0 < 2 ^ n) by (apply Z.pow_pos_nonneg; lia).
  assert (Hq : 2 ^ 52 <= a / 2 ^ n).
  { apply Z.div_le_lower_bound; [assumption | lia]. }
  rewrite Z.sub_0_r, Hpow.
  destruct (_ || _); nia.
Qed.

(** Integers outside the safe range still compare as integers with 1
    and with 12. *)
Lemma of_Z_nonpos_lt_one (v : Z) : v <= 0 -> ltb (of_Z v) one = true.
Proof.
  intros Hv. pose proof one_k_pos as Hu. unfold of_Z, round_k, finish, one.
  pose proof (round_mag_nonneg (Z.abs (v * one_k)) false (Z.abs_nonneg _)) as Hm.
  destruct (Z.ltb_spec (v * one_k) 0) as [Hneg|Hpos].
  - destruct (_ <=? _); cbn [ltb]; [reflexivity | apply Z.ltb_lt; lia].
  - assert (v = 0) by nia. subst v. rewrite Z.mul_0_l. cbn [Z.abs].
    unfold round_mag. cbn [Z.log2 Z.sub Z.opp Z.add Z.max Z.compare Z.eqb].
    replace (huge_k <=? 0) with false.
    + cbn [ltb]. apply Z.ltb_lt. lia.
    + symmetry. apply Z.leb_gt. unfold huge_k. apply Z.pow_pos_nonneg; lia.
Qed.

Lemma of_Z_large_gt (v : Z) : 12 < v -> ltb (of_Z 12) (of_Z v) = true.
Proof.
  intros Hv. destruct (Z.le_gt_cases v (2 ^ 53)) as [Hs|Hb].
  - rewrite ltb_of_Z by (unfold safe; lia). apply Z.ltb_lt. lia.
  - rewrite (of_Z_exact 12) by (unfold safe; lia).
    pose proof one_k_pos as Hu. unfold of_Z, round_k, finish.
    assert (Hpos : 0 < v * one_k) by nia.
    rewrite Z.abs_eq by lia.
    pose proof (round_mag_lower _ Hpos) as Hlow.
    assert (Hlog : 53 + 1074 <= Z.log2 (v * one_k)).
    { rewrite one_k_eq, Z.log2_mul_pow2 by lia.
      assert (53 <= Z.log2 v) by (apply Z.log2_le_pow2; lia). lia. }
    assert (Hp : 2 ^ (53 + 1074) <= 2 ^ Z.log2 (v * one_k)) by (apply Z.pow_le_mono_r; lia).
    assert (H12 : 12 * one_k < 2 ^ (53 + 1074)).
    { rewrite Z.pow_add_r, <- one_k_eq by lia. assert (12 < 2 ^ 53) by lia. nia. }
    replace (v * one_k <? 0) with false by (symmetry; apply Z.ltb_ge; lia).
    destruct (_ <=? _); cbn [ltb]; [reflexivity | apply Z.ltb_lt; lia].
Qed.












Lemma or_zero_id (x : number) : x <> NaN -> (if truthy x then x else zero) = x.
Proof.
  intros Hx. destruct x as [| |k]; [contradiction | reflexivity |].
  cbn [truthy]. destruct (Z.eqb_spec k 0) as [->|]; reflexivity.
Qed.

(** Multiples of a power of two, up to [2^53] of them, are exact. *)
Lemma quantum_mod (m t : Z) :
  0 <= t -> 0 <= m <= 2 ^ 53 ->
  (m * 2 ^ t) mod 2 ^ (Z.max 0 (Z.log2 (m * 2 ^ t) - 52)) = 0.
Proof.
  intros Ht Hm.
  destruct (Z.eq_dec m 0) as [->|Hz].
  { rewrite Z.mul_0_l. apply Z.mod_0_l.
    assert (0 < 2 ^ (Z.max 0 (Z.log2 0 - 52))) by (apply Z.pow_pos_nonneg; lia). lia. }
  rewrite Z.log2_mul_pow2 by lia.
  assert (Hl : 0 <= Z.log2 m) by apply Z.log2_nonneg.
  destruct (Z.max_spec 0 (t + Z.log2 m - 52)) as [[Hlt ->]|[Hge ->]].
  2:{ apply Z.mod_1_r. }
  remember (t + Z.log2 m - 52) as n eqn:En.
  assert (H2n : 0 < 2 ^ n) by (apply Z.pow_pos_nonneg; lia).
  destruct (Z.eq_dec m (2 ^ 53)) as [->|Hne].
  - rewrite <- Z.pow_add_r by lia.
    rewrite Z.log2_pow2 in En by lia.
    replace (53 + t) with (52 + n) by lia.
    rewrite Z.pow_add_r by lia. apply Z.mod_mul. lia.
  - assert (Z.log2 m < 53) by (apply Z.log2_lt_pow2; lia).
    replace t with ((t - n) + n) at 1 by lia.
    rewrite Z.pow_add_r by lia. rewrite Z.mul_assoc. apply Z.mod_mul. lia.
Qed.

Lemma round_k_quantum (m t : Z) :
  0 <= t <= 1074 -> 0 <= m <= 2 ^ 53 -> round_k (m * 2 ^ t) = Fin (m * 2 ^ t).
Proof.
  intros Ht Hm. unfold round_k.
  assert (H2t : 0 < 2 ^ t) by (apply Z.pow_pos_nonneg; lia).
  assert (Hk : 0 <= m * 2 ^ t) by nia.
  rewrite Z.abs_eq by assumption.
  rewrite round_mag_exact by (try assumption; apply quantum_mod; lia).
  unfold finish.
  assert (Hlt : m * 2 ^ t < huge_k).
  { pose proof (scaled_below_huge m Hm) as Hh. rewrite one_k_eq in Hh.
    assert (2 ^ t <= 2 ^ 1074) by (apply Z.pow_le_mono_r; lia). nia. }
  replace (huge_k <=? m * 2 ^ t) with false by (symmetry; apply Z.leb_gt; lia).
  replace (m * 2 ^ t <? 0) with false by (symmetry; apply Z.ltb_ge; lia).
  reflexivity.
Qed.

Lemma add_quantum (a b t : Z) :
  0 <= t <= 1074 -> 0 <= a -> 0 <= b -> a + b <= 2 ^ 53 ->
  add (Fin (a * 2 ^ t)) (Fin (b * 2 ^ t)) = Fin ((a + b) * 2 ^ t).
Proof.
  intros Ht Ha Hb Hab. cbn [add].
  rewrite <- Z.mul_add_distr_r. apply round_k_quantum; lia.
Qed.

End NumFacts.

(** The binary64 model against the kernel's primitive floats, on a few
    additions and literals. *)

Module NumCheck.

Import Stdlib.Floats.Floats.
Import Num FloatRef.
Set Warnings "-inexact-float".

Example add_agrees :
  map (fun xy => add (of_float (fst xy)) (of_float (snd xy)))
      [(0.1, 0.2); (0.1, 0.7); (9007199254740992, 1); (1e308, 1e308);
       (5e-324, 5e-324); (0.5, 0.2)]%float
  = map (fun xy => of_float (fst xy + snd xy)%float)
      [(0.1, 0.2); (0.1, 0.7); (9007199254740992, 1); (1e308, 1e308);
       (5e-324, 5e-324); (0.5, 0.2)]%float.
Proof. reflexivity. Qed.

Example parseFloat_agrees :
  map Conv.parseFloat
      ["0.1"; "12.5"; "1e23"; "5e-324"; "2e-324"; "1e400"; "9007199254740993";
       "0.7000000000000001"]%string
  = map of_float
      [0.1; 12.5; 1e23; 5e-324; 0; infinity; 9007199254740992;
       0.7000000000000001]%float.
Proof. reflexivity. Qed.

End NumCheck.

(** What the conversions give on strings of the kind the command line
    carries, as the language defines them. *)

Example parseFloat_prefix :
  map (fun s => Conv.toString (Conv.parseFloat s))
      ["20"; "  -12.50abc"; ".5"; "5."; "1e"; "abc"; ""; "Infinity"; "-0"]%string
  = ["20"; "-12.5"; "0.5"; "5"; "1"; "NaN"; "NaN"; "Infinity"; "0"]%string.
Proof. reflexivity. Qed.

Example parseInt_prefix :
  map (fun s => Conv.toString (Conv.parseInt s))
      ["8"; " 8abc"; "12.9"; "0x1F"; "-7"; ""; "abc"]%string
  = ["8"; "8"; "12"; "31"; "-7"; "NaN"; "NaN"]%string.
Proof. reflexivity. Qed.

Example toString_layout :
  map (fun s => Conv.toString (Conv.parseFloat s))
      ["1e21"; "123456789"; "0.000001"; "1e-7"; "4.35"]%string
  = ["1e+21"; "123456789"; "0.000001"; "1e-7"; "4.35"]%string.
Proof. reflexivity. Qed.

(** * The handlers *)

Import Tracker Spec Sample NumFacts.
Open Scope string_scope.
Open Scope list_scope.
Open Scope Z_scope.

(** ** Arrays *)

Lemma findIndex_ge {A : Type} (p : A -> bool) (xs : list A) : -1 <= findIndex p xs.
Proof.
  induction xs as [|x xs IH]; cbn [findIndex]; [lia|].
  destruct (p x); [lia|]. destruct (Z.eqb_spec (findIndex p xs) (-1)); lia.
Qed.

Lemma findIndex_none {A : Type} (p : A -> bool) (xs : list A) :
  (forall x, In x xs -> p x = false) -> findIndex p xs = -1.
Proof.
  induction xs as [|x xs IH]; intros H; cbn [findIndex]; [reflexivity|].
  rewrite (H x) by (left; reflexivity).
  rewrite IH by (intros y Hy; apply H; right; exact Hy). reflexivity.
Qed.

Lemma findIndex_first {A : Type} (p : A -> bool) (pre : list A) (x : A) (post : list A) :
  (forall y, In y pre -> p y = false) -> p x = true ->
  findIndex p (pre ++ x :: post) = Z.of_nat (List.length pre).
Proof.
  induction pre as [|y pre IH]; intros Hpre Hx; cbn [app findIndex List.length].
  - rewrite Hx. reflexivity.
  - rewrite (Hpre y) by (left; reflexivity).
    rewrite IH by (try assumption; intros z Hz; apply Hpre; right; exact Hz).
    destruct (Z.eqb_spec (Z.of_nat (List.length pre)) (-1)); lia.
Qed.


Lemma updateAt_middle {A : Type} (f : A -> A) (pre : list A) (x : A) (post : list A) :
  updateAt (List.length pre) f (pre ++ x :: post) = pre ++ f x :: post.
Proof.
  induction pre as [|y pre IH]; cbn [app List.length updateAt]; [reflexivity|].
  rewrite IH. reflexivity.
Qed.

Lemma NoDup_snoc {A : Type} (xs : list A) (x : A) :
  NoDup xs -> ~ In x xs -> NoDup (xs ++ [x]).
Proof.
  intros Hnd Hx. induction Hnd as [|y ys Hy Hnd IH]; cbn [app].
  - constructor; [intros [] | constructor].
  - constructor.
    + rewrite in_app_iff. cbn [In]. intros [H|[H|[]]]; [contradiction|].
      subst. apply Hx. left. reflexivity.
    + apply IH. intros H. apply Hx. right. exact H.
Qed.

Lemma filter_split_perm {A : Type} (p : A -> bool) (l : list A) :
  Permutation (filter p l ++ filter (fun x => negb (p x)) l) l.
Proof.
  induction l as [|x l IH]; cbn [filter app]; [reflexivity|].
  destruct (p x); cbn [negb app].
  - constructor. exact IH.
  - rewrite <- Permutation_middle. constructor. exact IH.
Qed.

(** ** Loading and printing *)

Lemma loadExpenses_eq (w : World) :
  loadExpenses w = (Return (store w), afterLoad w).
Proof.
  unfold afterLoad, loadExpenses, store. destruct (expensesFile w); reflexivity.
Qed.

Lemma afterLoad_files (w : World) :
  expensesFile (afterLoad w) = expensesFile w
  /\ budgetsFile (afterLoad w) = budgetsFile w
  /\ otherFiles (afterLoad w) = otherFiles w
  /\ writes (afterLoad w) = writes w
  /\ stdout (afterLoad w) = stdout w.
Proof.
  unfold afterLoad, loadExpenses. destruct (expensesFile w) eqn:E; cbn; auto.
Qed.

Lemma logEach_eq {A : Type} (f : A -> string) (xs : list A) (w : World) :
  logEach f xs w =
  (Return tt, mkWorld (expensesFile w) (budgetsFile w) (otherFiles w) (writes w)
                      (stdout w ++ map f xs) (stderr w)).
Proof.
  revert w. induction xs as [|x xs IH]; intros w; cbn [logEach map].
  - unfold ret. rewrite app_nil_r. destruct w; reflexivity.
  - unfold bind, log. rewrite IH. cbn. rewrite <- app_assoc. reflexivity.
Qed.

Lemma valid_amount_iff (x : Num.number) :
  Num.isNaN x || Num.leb x Num.zero = negb (Num.ltb Num.zero x).
Proof.
  destruct x as [|[|]|k]; try reflexivity.
  unfold Num.leb, Num.zero. cbn [Num.isNaN Num.ltb Num.eqb orb].
  destruct (Z.ltb_spec k 0), (Z.eqb_spec k 0), (Z.ltb_spec 0 k); cbn; try reflexivity; lia.
Qed.

(** ** Arguments *)

(** A value that is not the empty string passes the presence checks of the
    handlers. *)
Lemma supplied_Some (v : option string) (s : string) :
  v = Some s -> s <> "" -> supplied v = Some s.
Proof.
  intros -> Hs. destruct s; [contradiction | reflexivity].
Qed.

(** The empty string is the identifier of no record: it parses to NaN. *)
Lemma matchesId_nonempty (idArg : string) (e : Expense) :
  matchesId idArg e = true -> idArg <> "".
Proof.
  intros H ->. unfold matchesId in H.
  change (Conv.parseInt "") with Num.NaN in H.
  destruct (id e); discriminate H.
Qed.

(** ** add: identifiers *)

(** An [add] either throws and leaves the file as it is, or appends one
    record whose identifier is [getNextId] of the store. *)
Lemma addExpense_cases (env : Env) (args : list string) (w : World) :
  (exists err, fst (addExpense env args w) = Throw err
               /\ expensesFile (snd (addExpense env args w)) = expensesFile w
               /\ writes (snd (addExpense env args w)) = writes w)
  \/ (exists e, added env args w e
                /\ fst (addExpense env args w) = Return tt
                /\ expensesFile (snd (addExpense env args w)) = Stored (store w ++ [e])).
Proof.
  destruct (afterLoad_files w) as (Hf & _ & _ & Hw & _).
  unfold addExpense, bind. rewrite loadExpenses_eq.
  destruct (supplied (getArgValue args "--description")) as [d|] eqn:Ed.
  2:{ left. eexists. cbn. repeat split; eauto. }
  destruct (supplied (getArgValue args "--amount")) as [a|] eqn:Ea.
  2:{ left. eexists. cbn. repeat split; eauto. }
  unfold validateAmount.
  destruct (Num.isNaN (Conv.parseFloat a) || Num.leb (Conv.parseFloat a) Num.zero) eqn:Ev.
  { left. eexists. cbn. repeat split; eauto. }
  right. eexists. split.
  { exists d, a. repeat split; eauto. }
  cbn. split; reflexivity.
Qed.

Lemma getNextId_of_Z (l : list Expense) (zs : list Z) :
  map id l = map Num.of_Z zs -> Forall safe zs ->
  exists z, getNextId l = Num.of_Z z /\ isNext zs z.
Proof.
  intros Hids Hsafe. destruct l as [|e l]; destruct zs as [|z0 zs]; try discriminate.
  - exists 1. split; [apply one_is_of_Z | reflexivity].
  - exists (fold_left Z.max zs z0 + 1). split.
    + unfold getNextId. rewrite Hids, max_list_of_Z by assumption.
      rewrite one_is_of_Z. apply add_of_Z.
      * inversion Hsafe; subst. apply fold_max_of_Z; assumption.
      * unfold safe; lia.
    + cbn [isNext]. replace (fold_left Z.max zs z0 + 1 - 1) with (fold_left Z.max zs z0) by lia.
      destruct (fold_max_spec zs z0) as (Hin & Hle & Hall). split.
      * destruct Hin as [->|Hin]; [left; reflexivity | right; exact Hin].
      * constructor; assumption.
Qed.

Lemma isNext_fresh (zs : list Z) (z : Z) (B : Z) :
  0 <= B -> Forall (fun x => - 2 ^ 53 <= x <= B) zs -> isNext zs z ->
  ~ In z zs /\ - 2 ^ 53 <= z <= B + 1.
Proof.
  intros HB Hall Hnext. destruct zs as [|z0 zs]; cbn [isNext] in Hnext.
  - subst. split; [intros [] | lia].
  - destruct Hnext as (Hin & Hle). split.
    + intros Hz. rewrite Forall_forall in Hle. specialize (Hle _ Hz). lia.
    + rewrite Forall_forall in Hall. specialize (Hall _ Hin). lia.
Qed.

Lemma NoDup_map_of_Z (zs : list Z) :
  Forall safe zs -> NoDup zs -> NoDup (map Num.of_Z zs).
Proof.
  intros Hs Hnd. induction Hnd as [|z zs Hnin Hnd IH]; cbn [map].
  - constructor.
  - inversion Hs; subst. constructor; [| apply IH; assumption].
    intros Hin. apply in_map_iff in Hin. destruct Hin as (y & Hy & Hyin).
    apply of_Z_inj in Hy; [subst; contradiction | | assumption].
    rewrite Forall_forall in H2. apply H2. assumption.
Qed.

(** The invariant of a run of [add] commands: the identifiers are distinct
    integers below a bound that leaves room for the commands to come. *)
Lemma add_sequence_invariant (cmds : list (Env * list string)) :
  forall (w : World) (zs : list Z) (B : Z),
    map id (store w) = map Num.of_Z zs ->
    NoDup zs ->
    0 <= B ->
    Forall (fun z => - 2 ^ 53 <= z <= B) zs ->
    B + Z.of_nat (List.length cmds) <= 2 ^ 53 ->
    exists (new : list Z) (news : list Expense),
      store (addAll cmds w) = store w ++ news
      /\ map id news = map Num.of_Z new
      /\ assigned zs new
      /\ NoDup (zs ++ new)
      /\ Forall safe (zs ++ new).
Proof.
  induction cmds as [|[env args] cmds IH]; intros w zs B Hids Hnd HB Hall Hlen.
  - exists [], []. cbn [addAll]. rewrite !app_nil_r. repeat split; auto.
    + constructor.
    + eapply Forall_impl; [|exact Hall]. unfold safe. cbn. intros; lia.
  - cbn [addAll]. cbn [List.length] in Hlen.
    assert (Hsafe : Forall safe zs).
    { eapply Forall_impl; [|exact Hall]. unfold safe. cbn. intros; lia. }
    destruct (addExpense_cases env args w) as [(err & _ & Hfile & _)|(e & Hadd & _ & Hfile)].
    + set (w1 := snd (addExpense env args w)) in *.
      assert (Hst : store w1 = store w) by (unfold store; rewrite Hfile; reflexivity).
      destruct (IH w1 zs B) as (new & news & H1 & H2 & H3 & H4 & H5); try assumption; try lia.
      { rewrite Hst. assumption. }
      exists new, news. rewrite H1, Hst. auto.
    + set (w1 := snd (addExpense env args w)) in *.
      assert (Hst : store w1 = store w ++ [e]) by (unfold store at 1; rewrite Hfile; reflexivity).
      destruct Hadd as (d & a & _ & _ & He).
      destruct (getNextId_of_Z (store w) zs Hids Hsafe) as (z & Hz & Hnext).
      destruct (isNext_fresh zs z B HB Hall Hnext) as (Hfresh & Hrange).
      destruct (IH w1 (zs ++ [z]) (B + 1)) as (new & news & H1 & H2 & H3 & H4 & H5); try lia.
      { rewrite Hst, !map_app, Hids. cbn [map]. rewrite He. cbn [id]. rewrite Hz. reflexivity. }
      { apply NoDup_snoc; assumption. }
      { apply Forall_app. split.
        - eapply Forall_impl; [|exact Hall]. cbn. intros; lia.
        - constructor; [lia | constructor]. }
      exists (z :: new), (e :: news). rewrite H1, Hst, <- !app_assoc in *. cbn [app] in *.
      repeat split; auto.
      * cbn [map]. rewrite H2, He. cbn [id]. rewrite Hz. reflexivity.
      * constructor; assumption.
Qed.

(** C1, amended.  For every sequence of [n] add operations starting from a
    store whose identifiers are distinct integers between [-2^53] and
    [2^53 - n], each newly assigned identifier equals one more than the
    maximum identifier present in the store at the time of the add, or 1
    when the store is empty, and all identifiers in the store remain
    strictly unique.  (The bound is that of the exact integers of binary64:
    adds that fail validation leave the store as it is.) *)
Theorem add_sequence_ids (cmds : list (Env * list string)) (w : World) (zs : list Z) :
  map id (store w) = map Num.of_Z zs ->
  NoDup zs ->
  Forall (fun z => - 2 ^ 53 <= z /\ z + Z.of_nat (List.length cmds) <= 2 ^ 53) zs ->
  Z.of_nat (List.length cmds) <= 2 ^ 53 ->
  exists (new : list Z) (news : list Expense),
    store (addAll cmds w) = store w ++ news
    /\ map id news = map Num.of_Z new
    /\ assigned zs new
    /\ NoDup (map id (store (addAll cmds w))).
Proof.
  intros Hids Hnd Hall Hlen.
  set (B := fold_left Z.max zs 0).
  destruct (fold_max_spec zs 0) as (Hin & H0 & Hle). fold B in Hin, H0, Hle.
  assert (HB : B + Z.of_nat (List.length cmds) <= 2 ^ 53).
  { destruct Hin as [->|Hin]; [lia|].
    rewrite Forall_forall in Hall. destruct (Hall _ Hin). lia. }
  assert (Hrange : Forall (fun z => - 2 ^ 53 <= z <= B) zs).
  { rewrite Forall_forall in *. intros z Hz. specialize (Hall z Hz). specialize (Hle z Hz). lia. }
  destruct (add_sequence_invariant cmds w zs B Hids Hnd H0 Hrange HB)
    as (new & news & H1 & H2 & H3 & H4 & H5).
  exists new, news. repeat split; try assumption.
  rewrite H1, map_app, Hids, H2, <- map_app.
  apply NoDup_map_of_Z; assumption.
Qed.

(** Witness of C1: three adds, the second rejected, on a store holding the
    identifiers 1 and 2. *)
Lemma add_sequence_ids_witness :
  exists (new : list Z) (news : list Expense),
    store (addAll [(env0, addDinner); (env0, addNothing); (env0, addDinner)] (worldOf [lunch; taxi]))
    = store (worldOf [lunch; taxi]) ++ news
    /\ map id news = map Num.of_Z new
    /\ assigned [1; 2] new
    /\ NoDup (map id (store (addAll [(env0, addDinner); (env0, addNothing); (env0, addDinner)]
                                    (worldOf [lunch; taxi])))).
Proof.
  apply (add_sequence_ids [(env0, addDinner); (env0, addNothing); (env0, addDinner)]
                          (worldOf [lunch; taxi]) [1; 2]).
  - reflexivity.
  - repeat constructor; cbn; intuition lia.
  - repeat constructor; cbn; lia.
  - cbn; lia.
Defined.

(** Counterexample to C1 as stated.  On a store whose only record has the
    identifier 9007199254740992 ([2^53]), [add] succeeds and assigns
    9007199254740992 again: in binary64 [2^53 + 1] rounds to [2^53].  The
    new identifier is not one more than the maximum and the identifiers of
    the store are no longer unique. *)
Lemma add_repeats_id_at_2_53 :
  NoDup (map id (store (worldOf [big])))
  /\ fst (addExpense env0 addDinner (worldOf [big])) = Return tt
  /\ map id (store (snd (addExpense env0 addDinner (worldOf [big]))))
     = [Num.of_Z (2 ^ 53); Num.of_Z (2 ^ 53)]
  /\ ~ NoDup (map id (store (snd (addExpense env0 addDinner (worldOf [big]))))).
Proof.
  assert (E : map id (store (snd (addExpense env0 addDinner (worldOf [big]))))
              = [Num.of_Z (2 ^ 53); Num.of_Z (2 ^ 53)]) by reflexivity.
  split; [|split; [|split]].
  - repeat constructor. intros [].
  - reflexivity.
  - exact E.
  - rewrite E. intros H. apply NoDup_cons_iff in H. destruct H as [Hn _].
    apply Hn. left. reflexivity.
Qed.

(** ** add: amounts *)

(** C2, amended.  For every store and every add that carries a non-empty
    description, every non-empty amount argument that is non-numeric
    ([parseFloat] gives NaN) or whose parsed value is at most 0 makes the
    add fail with InvalidAmount, and the persisted store is left unchanged:
    no file is written, nothing is printed. *)
Theorem add_rejects_bad_amount (env : Env) (args : list string) (w : World) (d a : string) :
  getArgValue args "--description" = Some d -> d <> "" ->
  getArgValue args "--amount" = Some a -> a <> "" ->
  Conv.parseFloat a = Num.NaN \/ Num.leb (Conv.parseFloat a) Num.zero = true ->
  fst (addExpense env args w) = Throw InvalidAmount
  /\ expensesFile (snd (addExpense env args w)) = expensesFile w
  /\ writes (snd (addExpense env args w)) = writes w
  /\ stdout (snd (addExpense env args w)) = stdout w.
Proof.
  intros Hd Hd' Ha Ha' Hbad.
  apply supplied_Some in Hd; [|exact Hd']. apply supplied_Some in Ha; [|exact Ha'].
  destruct (afterLoad_files w) as (Hf & _ & _ & Hw & Ho).
  unfold addExpense, bind. rewrite loadExpenses_eq, Hd, Ha.
  unfold validateAmount.
  assert (E : Num.isNaN (Conv.parseFloat a) || Num.leb (Conv.parseFloat a) Num.zero = true).
  { destruct Hbad as [-> | ->]; [reflexivity | apply orb_true_r]. }
  rewrite E. cbn. auto.
Qed.

(** Witness of C2: [add --description Lunch --amount -5]. *)
Lemma add_rejects_bad_amount_witness :
  fst (addExpense env0 addMinus5 (worldOf [lunch])) = Throw InvalidAmount
  /\ expensesFile (snd (addExpense env0 addMinus5 (worldOf [lunch]))) = expensesFile (worldOf [lunch])
  /\ writes (snd (addExpense env0 addMinus5 (worldOf [lunch]))) = writes (worldOf [lunch])
  /\ stdout (snd (addExpense env0 addMinus5 (worldOf [lunch]))) = stdout (worldOf [lunch]).
Proof.
  apply (add_rejects_bad_amount env0 addMinus5 (worldOf [lunch]) "Lunch" "-5").
  - reflexivity.
  - intros H; discriminate H.
  - reflexivity.
  - intros H; discriminate H.
  - right. reflexivity.
Defined.

(** Counterexample to C2 as stated.  [add --amount -5] carries an amount
    argument whose parsed value is below 0, and fails with MissingArgument:
    the description is checked before the amount.  And in [add
    --description Lunch --amount] followed by an empty token, the amount
    argument is the empty string, which is non-numeric; the add fails with
    MissingArgument as well, the empty string being taken for a missing
    value. *)
Lemma add_bad_amount_without_description :
  (getArgValue addMinus5NoDescription "--amount" = Some "-5"
   /\ Num.leb (Conv.parseFloat "-5") Num.zero = true
   /\ fst (addExpense env0 addMinus5NoDescription (worldOf [lunch]))
      = Throw (MissingArgument "Description is required (--description)"))
  /\ (getArgValue addEmptyAmount "--description" = Some "Lunch"
      /\ getArgValue addEmptyAmount "--amount" = Some ""
      /\ Conv.parseFloat "" = Num.NaN
      /\ fst (addExpense env0 addEmptyAmount (worldOf [lunch]))
         = Throw (MissingArgument "Amount is required (--amount)")).
Proof. repeat split; reflexivity. Qed.

(** ** update *)

(** C3, amended.  For every store and every non-empty identifier argument that
    matches no record in the store, update fails with NotFound and the
    persisted store is left unchanged.  An argument matches a record when
    the record's identifier is [parseInt] of it. *)
Theorem update_unknown_id (args : list string) (w : World) (idArg : string) :
  getArgValue args "--id" = Some idArg -> idArg <> "" ->
  (forall e, In e (store w) -> matchesId idArg e = false) ->
  fst (updateExpense args w) = Throw (NotFound idArg)
  /\ expensesFile (snd (updateExpense args w)) = expensesFile w
  /\ writes (snd (updateExpense args w)) = writes w
  /\ stdout (snd (updateExpense args w)) = stdout w.
Proof.
  intros Hid Hid' Hnone. apply supplied_Some in Hid; [|exact Hid'].
  destruct (afterLoad_files w) as (Hf & _ & _ & Hw & Ho).
  unfold updateExpense, bind. rewrite loadExpenses_eq, Hid.
  unfold findExpenseById. rewrite (findIndex_none _ _ Hnone). cbn. auto.
Qed.

(** Witness of C3: [update --id 7 --amount 5] on a store with the
    identifiers 1 and 2. *)
Lemma update_unknown_id_witness :
  fst (updateExpense update7 (worldOf [lunch; taxi])) = Throw (NotFound "7")
  /\ expensesFile (snd (updateExpense update7 (worldOf [lunch; taxi]))) = expensesFile (worldOf [lunch; taxi])
  /\ writes (snd (updateExpense update7 (worldOf [lunch; taxi]))) = writes (worldOf [lunch; taxi])
  /\ stdout (snd (updateExpense update7 (worldOf [lunch; taxi]))) = stdout (worldOf [lunch; taxi]).
Proof.
  apply (update_unknown_id update7 (worldOf [lunch; taxi]) "7").
  - reflexivity.
  - intros H; discriminate H.
  - intros e [<-|[<-|[]]]; reflexivity.
Defined.

(** Counterexample to C3 as stated.  In [update --id] followed by an empty
    token and [--amount 5], the identifier argument is the empty string; it
    matches no record, and update fails with MissingArgument, not with
    NotFound. *)
Lemma update_empty_id_is_missing :
  getArgValue updateEmptyId "--id" = Some ""
  /\ (forall e, In e (store (worldOf [lunch; taxi])) -> matchesId "" e = false)
  /\ fst (updateExpense updateEmptyId (worldOf [lunch; taxi]))
     = Throw (MissingArgument "Expense ID is required (--id)").
Proof.
  split; [reflexivity|]. split; [|reflexivity].
  intros e [<-|[<-|[]]]; reflexivity.
Qed.

(** C5, amended.  For every store whose numbers are finite, every existing
    identifier and every subset of the description, amount and category
    arguments in which the amount, when supplied, parses to a finite
    positive number, update overwrites exactly the fields of the first
    matching record for which a non-empty argument was supplied (description
    and category with the trimmed argument, amount with its parsed value),
    leaves the identifier and the date of that record unchanged, and leaves
    all other records unchanged. *)
Theorem update_overwrites_supplied_fields (args : list string) (w : World)
  (idArg : string) (pre : list Expense) (e : Expense) (post : list Expense) :
  getArgValue args "--id" = Some idArg ->
  store w = pre ++ e :: post ->
  Forall storable (store w) ->
  (forall x, In x pre -> matchesId idArg x = false) ->
  matchesId idArg e = true ->
  (forall a, supplied (getArgValue args "--amount") = Some a ->
             Num.ltb Num.zero (Conv.parseFloat a) = true
             /\ finite (Conv.parseFloat a)) ->
  fst (updateExpense args w) = Return tt
  /\ expensesFile (snd (updateExpense args w)) = Stored (pre ++ updated args e :: post).
Proof.
  intros Hid Hst _ Hpre He Hamt'.
  assert (Hamt : forall a, supplied (getArgValue args "--amount") = Some a ->
                           Num.ltb Num.zero (Conv.parseFloat a) = true)
    by (intros a Ha; exact (proj1 (Hamt' a Ha))).
  apply supplied_Some in Hid; [|exact (matchesId_nonempty _ _ He)].
  unfold updateExpense, bind. rewrite loadExpenses_eq, Hid.
  unfold findExpenseById. rewrite Hst, (findIndex_first _ pre e post Hpre He).
  destruct (Z.eqb_spec (Z.of_nat (List.length pre)) (-1)); [lia|].
  unfold ret at 1. rewrite Nat2Z.id. unfold updated.
  destruct (supplied (getArgValue args "--description")) as [d|];
    destruct (supplied (getArgValue args "--amount")) as [a|] eqn:Ea;
    destruct (supplied (getArgValue args "--category")) as [c|];
    try (specialize (Hamt a eq_refl); unfold validateAmount, bind;
         rewrite valid_amount_iff, Hamt; cbn [negb]);
    unfold ret; rewrite ?updateAt_middle; cbn; destruct e; split; reflexivity.
Qed.

(** Witness of C5: [update --id 2 --description ' Cab ' --amount 15]. *)
Lemma update_overwrites_supplied_fields_witness :
  fst (updateExpense updateTaxi (worldOf [lunch; taxi])) = Return tt
  /\ expensesFile (snd (updateExpense updateTaxi (worldOf [lunch; taxi])))
     = Stored ([lunch] ++ updated updateTaxi taxi :: []).
Proof.
  apply (update_overwrites_supplied_fields updateTaxi (worldOf [lunch; taxi]) "2" [lunch] taxi []).
  - reflexivity.
  - reflexivity.
  - repeat (exact I || apply Forall_nil || apply Forall_cons || split).
  - intros x [<-|[]]. reflexivity.
  - reflexivity.
  - intros a H. injection H as <-. split; [reflexivity | exact I].
Defined.

(** Counterexample to C5 as stated.  [update --id 1 --description Brunch
    --amount -5] supplies a description and an amount for an existing
    identifier; it fails with InvalidAmount and the description of the
    record is not overwritten in the store.  And [update --id 1
    --description] followed by an empty token succeeds and leaves the
    description [Lunch] as it is: an empty argument counts as none. *)
Lemma update_with_bad_amount_overwrites_nothing :
  (getArgValue updateBad "--description" = Some "Brunch"
   /\ matchesId "1" lunch = true
   /\ fst (updateExpense updateBad (worldOf [lunch; taxi])) = Throw InvalidAmount
   /\ expensesFile (snd (updateExpense updateBad (worldOf [lunch; taxi]))) = Stored [lunch; taxi])
  /\ (getArgValue updateEmptyDescription "--description" = Some ""
      /\ fst (updateExpense updateEmptyDescription (worldOf [lunch; taxi])) = Return tt
      /\ expensesFile (snd (updateExpense updateEmptyDescription (worldOf [lunch; taxi])))
         = Stored [lunch; taxi]
      /\ description lunch = "Lunch").
Proof. repeat split; reflexivity. Qed.

(** ** delete *)




(** ** list *)











(** The table of that run. *)
Example list_food_output :
  stdout (snd (listExpenses listFood (worldOf [lunch; taxi]))) =
  [ "ID  Date       Description                Amount    Category";
    "--  ---------- -------------------------- --------- ----------";
    "1   2024-08-15 Lunch                      $20       Food" ].
Proof. reflexivity. Qed.


(** ** export *)

Lemma str_app_assoc (a b c : string) : ((a ++ b) ++ c = a ++ b ++ c)%string.
Proof. induction a as [|x a IH]; cbn; [reflexivity | rewrite IH; reflexivity]. Qed.





(** The file of [export] on a store of two records. *)
Example export_two_records :
  otherFiles (snd (exportToCsv ["export"] (worldOf [lunch; taxi]))) =
  [ ("expenses.csv",
     ("ID,Date,Description,Amount,Category"
      ++ String "010" ("1,2024-08-15,"
      ++ String "034" ("Lunch"
      ++ String "034" (",20,Food"
      ++ String "010" ("2,2024-08-16,"
      ++ String "034" ("Taxi"
      ++ String "034" ",12.5,Travel"))))))%string) ].
Proof. reflexivity. Qed.

(** ** Month arguments *)

Lemma parseInt_cases (s : string) :
  Conv.parseInt s = Num.NaN \/ exists v, Conv.parseInt s = Num.of_Z v.
Proof.
  unfold Conv.parseInt.
  destruct (Conv.take_sign (Str.trimStart s)) as [negative s1].
  match goal with |- context [let '(v, cnt) := ?X in _] => destruct X as [v cnt] end.
  destruct (cnt =? 0); [left; reflexivity | right; eexists; reflexivity].
Qed.

Lemma badMonth_of_Z (z : Z) : 1 <= z <= 12 -> badMonth (Num.of_Z z) = false.
Proof.
  intros Hz. unfold badMonth, Num.gtb. rewrite one_is_of_Z.
  rewrite !ltb_of_Z by (unfold safe; lia).
  rewrite (of_Z_exact z) by (unfold safe; lia). cbn [Num.isNaN orb].
  apply orb_false_iff. split; apply Z.ltb_ge; lia.
Qed.

Lemma badMonth_iff (s : string) :
  badMonth (Conv.parseInt s) = false <-> parsesAsMonth s.
Proof.
  split.
  - intros Hb. destruct (parseInt_cases s) as [E|(v & E)].
    + rewrite E in Hb. discriminate Hb.
    + exists v. split; [exact E|]. rewrite E in Hb. unfold badMonth in Hb.
      apply orb_false_iff in Hb. destruct Hb as (Hb & Hgt).
      apply orb_false_iff in Hb. destruct Hb as (_ & Hlt).
      destruct (Z.le_gt_cases v 0) as [H0|H0].
      { rewrite of_Z_nonpos_lt_one in Hlt by assumption. discriminate Hlt. }
      destruct (Z.le_gt_cases v 12) as [H12|H12]; [lia|].
      unfold Num.gtb in Hgt. rewrite of_Z_large_gt in Hgt by assumption. discriminate Hgt.
  - intros (z & E & Hz). rewrite E. apply badMonth_of_Z. assumption.
Qed.

(** C8, amended.  For every non-empty month argument given to summary, and
    for every non-empty month argument given to budget together with a
    non-empty amount argument, the argument must parse as an integer in
    [1,12]: for every argument that does not, the operation fails with
    InvalidMonth (and budget writes no budget), and for every argument that
    does, it does not. *)
Theorem month_must_be_1_to_12 (env : Env) (args : list string) (w : World) (m : string) :
  getArgValue args "--month" = Some m -> m <> "" ->
  (~ parsesAsMonth m ->
     fst (showSummary env args w) = Throw InvalidMonth
     /\ forall a, getArgValue args "--amount" = Some a -> a <> "" ->
                  fst (setBudget env args w) = Throw InvalidMonth
                  /\ budgetsFile (snd (setBudget env args w)) = budgetsFile w)
  /\ (parsesAsMonth m ->
     fst (showSummary env args w) = Return tt
     /\ forall a, getArgValue args "--amount" = Some a -> a <> "" ->
                  fst (setBudget env args w) <> Throw InvalidMonth).
Proof.
  intros Hm Hm'. apply supplied_Some in Hm; [|exact Hm']. split.
  - intros Hbad.
    assert (E : badMonth (Conv.parseInt m) = true).
    { destruct (badMonth (Conv.parseInt m)) eqn:E; [reflexivity|].
      apply badMonth_iff in E. contradiction. }
    split.
    + unfold showSummary, bind. rewrite loadExpenses_eq, Hm, E. reflexivity.
    + intros a Ha Ha'. apply supplied_Some in Ha; [|exact Ha'].
      unfold setBudget. rewrite Hm, Ha, E. split; reflexivity.
  - intros Hok. apply badMonth_iff in Hok. split.
    + unfold showSummary, bind. rewrite loadExpenses_eq, Hm, Hok.
      unfold ret at 1.
      destruct (supplied (getArgValue args "--category")).
      * reflexivity.
      * unfold log at 1.
        destruct (filter _ _); [reflexivity|].
        unfold log. rewrite logEach_eq. reflexivity.
    + intros a Ha Ha'. apply supplied_Some in Ha; [|exact Ha'].
      unfold setBudget. rewrite Hm, Ha, Hok.
      unfold bind, validateAmount.
      destruct (_ || _); [discriminate|].
      unfold ret at 1. 
      destruct (loadBudgets w) as [[b|e] w1] eqn:Eb.
      2:{ unfold loadBudgets in Eb. destruct (budgetsFile w); cbn in Eb; discriminate. }
      unfold saveBudgets, log at 1. rewrite loadExpenses_eq.
      destruct (Num.gtb _ _); cbn; discriminate.
Qed.

Lemma thirteen_is_no_month : ~ parsesAsMonth "13".
Proof.
  intros (z & E & Hz).
  change (Conv.parseInt "13") with (Num.of_Z 13) in E.
  apply of_Z_inj in E; unfold safe; lia.
Qed.

(** Witness of C8: [summary --month 13] and [budget --month 13 --amount 100]. *)
Lemma month_must_be_1_to_12_witness :
  fst (showSummary env0 summary13 (worldOf [lunch])) = Throw InvalidMonth
  /\ fst (setBudget env0 budget13 (worldOf [lunch])) = Throw InvalidMonth.
Proof.
  split.
  - apply (month_must_be_1_to_12 env0 summary13 (worldOf [lunch]) "13" eq_refl).
    + intros H; discriminate H.
    + exact thirteen_is_no_month.
  - assert (H13 : "13" <> "") by (intros H; discriminate H).
    assert (H100 : "100" <> "") by (intros H; discriminate H).
    apply (proj2 (proj1 (month_must_be_1_to_12 env0 budget13 (worldOf [lunch]) "13" eq_refl H13)
                        thirteen_is_no_month) "100" eq_refl H100).
Defined.

(** Counterexample to C8 as stated.  [budget --month 13] carries a month
    argument that is no month, and fails with MissingArgument: budget looks
    for its two arguments before it validates the month.  And in [summary
    --month] followed by an empty token, the month argument is the empty
    string, which parses to no integer; summary does not fail, it prints the
    total of all records. *)
Lemma budget_bad_month_without_amount :
  (getArgValue budget13NoAmount "--month" = Some "13"
   /\ badMonth (Conv.parseInt "13") = true
   /\ fst (setBudget env0 budget13NoAmount (worldOf [lunch]))
      = Throw (MissingArgument "Both --month and --amount are required"))
  /\ (getArgValue summaryEmptyMonth "--month" = Some ""
      /\ badMonth (Conv.parseInt "") = true
      /\ fst (showSummary env0 summaryEmptyMonth (worldOf [lunch])) = Return tt).
Proof. repeat split; reflexivity. Qed.

(** ** Flags without a value *)

Lemma indexOf_absent (pre : list string) (flag : string) :
  ~ In flag pre -> indexOf pre flag = -1.
Proof.
  intros Hn. unfold indexOf. apply findIndex_none.
  intros x Hx. apply String.eqb_neq. intros ->. contradiction.
Qed.

Lemma indexOf_trailing (pre : list string) (flag : string) :
  ~ In flag pre -> indexOf (pre ++ [flag]) flag = Z.of_nat (List.length pre).
Proof.
  intros Hn. unfold indexOf. apply findIndex_first.
  - intros x Hx. apply String.eqb_neq. intros ->. contradiction.
  - apply String.eqb_refl.
Qed.

Lemma getArgValue_absent (pre : list string) (flag : string) :
  ~ In flag pre -> getArgValue pre flag = None.
Proof.
  intros Hn. unfold getArgValue. rewrite indexOf_absent by assumption. reflexivity.
Qed.

Lemma getArgValue_trailing (pre : list string) (flag : string) :
  ~ In flag pre -> getArgValue (pre ++ [flag]) flag = None.
Proof.
  intros Hn. unfold getArgValue. rewrite indexOf_trailing by assumption.
  rewrite length_app. cbn [List.length].
  replace (Z.of_nat (List.length pre) + 1 <? Z.of_nat (List.length pre + 1)) with false
    by (symmetry; apply Z.ltb_ge; lia).
  rewrite andb_false_r. reflexivity.
Qed.

(** A search that succeeds splits the array at the first match. *)
Lemma findIndex_found {A : Type} (p : A -> bool) (xs : list A) :
  findIndex p xs <> -1 ->
  exists pre x post,
    xs = pre ++ x :: post
    /\ (forall y, In y pre -> p y = false)
    /\ p x = true
    /\ findIndex p xs = Z.of_nat (List.length pre).
Proof.
  induction xs as [|x xs IH]; cbn [findIndex]; intros H; [contradiction|].
  destruct (p x) eqn:Hx.
  - exists [], x, xs. repeat split; [intros y []|exact Hx].
  - destruct (Z.eqb_spec (findIndex p xs) (-1)) as [E|E]; [contradiction|].
    destruct (IH E) as (pre & y & post & -> & Hpre & Hy & Hi).
    exists (x :: pre), y, post. repeat split.
    + intros z [<-|Hz]; [exact Hx | apply Hpre; exact Hz].
    + exact Hy.
    + rewrite Hi. cbn [List.length]. lia.
Qed.

Lemma nth_error_after {A : Type} (pre : list A) (x : A) (post : list A) :
  nth_error (pre ++ x :: post) (Z.to_nat (Z.of_nat (List.length pre) + 1)) = nth_error post 0.
Proof.
  replace (Z.to_nat (Z.of_nat (List.length pre) + 1)) with (List.length pre + 1)%nat by lia.
  rewrite nth_error_app2 by lia.
  replace (List.length pre + 1 - List.length pre)%nat with 1%nat by lia. reflexivity.
Qed.

Lemma eqb_flag_false (flag : string) (pre : list string) :
  ~ In flag pre -> forall y, In y pre -> String.eqb flag y = false.
Proof.
  intros Hn y Hy. apply String.eqb_neq. intros ->. exact (Hn Hy).
Qed.

(** The token after the first occurrence of a flag is its value. *)
Lemma getArgValue_at (pre : list string) (flag v : string) (post : list string) :
  ~ In flag pre -> getArgValue (pre ++ flag :: v :: post) flag = Some v.
Proof.
  intros Hn. unfold getArgValue, indexOf.
  rewrite (findIndex_first _ pre flag (v :: post) (eqb_flag_false flag pre Hn)
                           (String.eqb_refl flag)).
  rewrite nth_error_after. rewrite length_app. cbn [List.length nth_error].
  destruct (Z.eqb_spec (Z.of_nat (List.length pre)) (-1)); [lia|].
  destruct (Z.ltb_spec (Z.of_nat (List.length pre) + 1)
                       (Z.of_nat (List.length pre + S (S (List.length post))))); [|lia].
  reflexivity.
Qed.

Lemma first_occurrence (f : string) (pre : list string) :
  In f pre -> exists a b, pre = a ++ f :: b /\ ~ In f a.
Proof.
  induction pre as [|x pre IH]; intros H; [destruct H|].
  destruct (string_dec x f) as [->|Hne].
  - exists [], pre. split; [reflexivity | intros []].
  - destruct H as [H|H]; [contradiction|].
    destruct (IH H) as (a & b & -> & Ha).
    exists (x :: a), b. split; [reflexivity|].
    intros [E|E]; [contradiction | exact (Ha E)].
Qed.

(** A trailing flag changes the value of no other flag, unless that flag is
    the token before it. *)
Lemma getArgValue_before_trailing (pre : list string) (flag f : string) :
  ~ In flag pre -> last pre "" <> f ->
  getArgValue (pre ++ [flag]) f = getArgValue pre f.
Proof.
  intros Hn Hlast.
  destruct (string_dec f flag) as [->|Hne].
  { rewrite getArgValue_trailing, getArgValue_absent by assumption. reflexivity. }
  destruct (in_dec string_dec f pre) as [Hin|Hout].
  - destruct (first_occurrence f pre Hin) as (a & b & -> & Ha).
    destruct b as [|v b].
    + contradiction Hlast. apply last_last.
    + rewrite <- app_assoc. cbn [app].
      rewrite !getArgValue_at by assumption. reflexivity.
  - rewrite (getArgValue_absent pre f Hout).
    apply getArgValue_absent. rewrite in_app_iff. cbn [In].
    intros [H|[H|[]]]; [exact (Hout H) | exact (Hne (eq_sym H))].
Qed.

(** C10, amended.  For every argument list in which a flag occurs only as
    the final token, and the token before it is none of the flags, the flag
    is treated exactly as if it were absent: argument extraction yields
    null, as it does on the list without that token, and every command runs
    on the one list as on the other.  So a required flag in that position
    fails with the MissingArgument error of the omitted flag
    ([--description] for add, [--id] for update and delete, [--month] and
    [--amount] for budget), and an optional flag in that position is
    ignored. *)
Theorem trailing_flag_reads_as_absent (env : Env) (pre : list string) (flag : string)
  (w : World) :
  ~ In flag pre ->
  ~ In (last pre "") flagNames ->
  getArgValue (pre ++ [flag]) flag = None
  /\ getArgValue pre flag = None
  /\ (addExpense env (pre ++ [flag]) w = addExpense env pre w
      /\ updateExpense (pre ++ [flag]) w = updateExpense pre w
      /\ deleteExpense (pre ++ [flag]) w = deleteExpense pre w
      /\ listExpenses (pre ++ [flag]) w = listExpenses pre w
      /\ showSummary env (pre ++ [flag]) w = showSummary env pre w
      /\ setBudget env (pre ++ [flag]) w = setBudget env pre w
      /\ exportToCsv (pre ++ [flag]) w = exportToCsv pre w)
  /\ (pre <> [] -> main env (pre ++ [flag]) w = main env pre w)
  /\ (flag = "--description" ->
      fst (addExpense env (pre ++ [flag]) w)
      = Throw (MissingArgument "Description is required (--description)"))
  /\ (flag = "--id" ->
      fst (updateExpense (pre ++ [flag]) w)
      = Throw (MissingArgument "Expense ID is required (--id)")
      /\ fst (deleteExpense (pre ++ [flag]) w)
         = Throw (MissingArgument "Expense ID is required (--id)"))
  /\ (flag = "--month" \/ flag = "--amount" ->
      fst (setBudget env (pre ++ [flag]) w)
      = Throw (MissingArgument "Both --month and --amount are required")).
Proof.
  intros Hn Hlast.
  pose proof (getArgValue_trailing pre flag Hn) as Ht.
  pose proof (getArgValue_absent pre flag Hn) as Ha.
  assert (Hf : forall f, In f flagNames ->
                         getArgValue (pre ++ [flag]) f = getArgValue pre f).
  { intros f Hin. apply getArgValue_before_trailing; [exact Hn|].
    intros E. apply Hlast. rewrite E. exact Hin. }
  assert (Hd := Hf "--description" ltac:(cbn; tauto)).
  assert (Hm := Hf "--amount" ltac:(cbn; tauto)).
  assert (Hc := Hf "--category" ltac:(cbn; tauto)).
  assert (Hi := Hf "--id" ltac:(cbn; tauto)).
  assert (Ho := Hf "--month" ltac:(cbn; tauto)).
  assert (Hfile := Hf "--file" ltac:(cbn; tauto)).
  assert (Hall : addExpense env (pre ++ [flag]) w = addExpense env pre w
                 /\ updateExpense (pre ++ [flag]) w = updateExpense pre w
                 /\ deleteExpense (pre ++ [flag]) w = deleteExpense pre w
                 /\ listExpenses (pre ++ [flag]) w = listExpenses pre w
                 /\ showSummary env (pre ++ [flag]) w = showSummary env pre w
                 /\ setBudget env (pre ++ [flag]) w = setBudget env pre w
                 /\ exportToCsv (pre ++ [flag]) w = exportToCsv pre w).
  { unfold addExpense, updateExpense, deleteExpense, listExpenses, showSummary,
      setBudget, exportToCsv.
    rewrite Hd, Hm, Hc, Hi, Ho, Hfile. repeat split; reflexivity. }
  split; [exact Ht|]. split; [exact Ha|]. split; [exact Hall|].
  destruct Hall as (Hadd & Hupd & Hdel & Hlist & Hsum & Hbud & Hexp).
  split; [|split; [|split]].
  - destruct pre as [|command rest]; [intros H; contradiction H; reflexivity|].
    intros _. cbn [app]. unfold main, handler.
    change (command :: rest ++ [flag]) with ((command :: rest) ++ [flag]).
    repeat match goal with
           | |- context [String.eqb command ?s] => destruct (String.eqb command s)
           end;
      rewrite ?Hadd, ?Hupd, ?Hdel, ?Hlist, ?Hsum, ?Hbud, ?Hexp; reflexivity.
  - intros ->. unfold addExpense, bind. rewrite loadExpenses_eq, Ht. reflexivity.
  - intros ->. unfold updateExpense, deleteExpense, bind.
    rewrite !loadExpenses_eq, Ht. split; reflexivity.
  - intros [-> | ->]; unfold setBudget; rewrite Ht; cbn [supplied].
    + reflexivity.
    + destruct (supplied (getArgValue _ "--month")); reflexivity.
Qed.

(** Witness of C10: [add --description Lunch --amount]. *)
Lemma trailing_flag_reads_as_absent_witness :
  getArgValue (["add"; "--description"; "Lunch"] ++ ["--amount"]) "--amount" = None
  /\ main env0 (["add"; "--description"; "Lunch"] ++ ["--amount"]) (worldOf [lunch])
     = main env0 ["add"; "--description"; "Lunch"] (worldOf [lunch])
  /\ fst (addExpense env0 ["add"; "--description"; "Lunch"] (worldOf [lunch]))
     = Throw (MissingArgument "Amount is required (--amount)").
Proof.
  assert (Hn : ~ In "--amount" ["add"; "--description"; "Lunch"]).
  { intros [H|[H|[H|[]]]]; discriminate H. }
  assert (Hl : ~ In (last ["add"; "--description"; "Lunch"] "") flagNames).
  { cbn. intros H. repeat (destruct H as [H|H]; [discriminate H|]). exact H. }
  pose proof (trailing_flag_reads_as_absent
                env0 ["add"; "--description"; "Lunch"] "--amount" (worldOf [lunch]) Hn Hl)
    as (H1 & _ & _ & H4 & _).
  split; [exact H1|]. split; [|reflexivity].
  apply H4. intros H; discriminate H.
Defined.

(** Counterexample to C10 as stated.  In [add --description Lunch --amount 5
    --amount] the flag [--amount] is the final token, with no token after
    it; extraction yields 5, the value after its first occurrence, and the
    add succeeds.  And in [add --description --amount] the flag [--amount]
    is the final token and occurs nowhere else; the add fails for the
    missing amount, whereas [add --description], where the flag is omitted,
    fails for the missing description. *)
Lemma repeated_flag_keeps_first_value :
  (last addAmountTwice "" = "--amount"
   /\ getArgValue addAmountTwice "--amount" = Some "5"
   /\ fst (addExpense env0 addAmountTwice (worldOf [lunch])) = Return tt)
  /\ (fst (addExpense env0 (["add"; "--description"] ++ ["--amount"]) (worldOf [lunch]))
      = Throw (MissingArgument "Amount is required (--amount)")
      /\ fst (addExpense env0 ["add"; "--description"] (worldOf [lunch]))
         = Throw (MissingArgument "Description is required (--description)")).
Proof. repeat split; reflexivity. Qed.

(** ** summary *)

(** *** Sorting and [Object.entries] permute *)

Lemma insertSorted_perm {A : Type} (cmp : A -> A -> Num.number) (x : A) (l : list A) :
  Permutation (insertSorted cmp x l) (x :: l).
Proof.
  induction l as [|y l IH]; cbn [insertSorted]; [reflexivity|].
  destruct (Num.gtb (cmp x y) Num.zero); [|reflexivity].
  rewrite IH. apply perm_swap.
Qed.

Lemma sort_perm {A : Type} (cmp : A -> A -> Num.number) (xs : list A) :
  Permutation (sort cmp xs) xs.
Proof.
  unfold sort. induction xs as [|x xs IH]; cbn [fold_right]; [reflexivity|].
  rewrite insertSorted_perm, IH. reflexivity.
Qed.

Lemma insertByIndex_perm {V : Type} (kv : string * V) (l : Obj V) :
  Permutation (insertByIndex kv l) (kv :: l).
Proof.
  induction l as [|y l IH]; cbn [insertByIndex]; [reflexivity|].
  destruct (indexOfKey kv <? indexOfKey y); [reflexivity|].
  rewrite IH. apply perm_swap.
Qed.

Lemma entries_perm {V : Type} (o : Obj V) : Permutation (entries o) o.
Proof.
  unfold entries. rewrite <- (filter_split_perm isIndexKey o) at 3.
  apply Permutation_app_tail.
  induction (filter isIndexKey o) as [|x l IH]; cbn [fold_right]; [reflexivity|].
  rewrite insertByIndex_perm, IH. reflexivity.
Qed.

Lemma breakdown_perm (l : list Expense) :
  Permutation (breakdown l) (categoryTotals l).
Proof. unfold breakdown. rewrite sort_perm. apply entries_perm. Qed.

(** *** The sort puts the larger subtotals first *)




(** *** The object of category totals *)

Lemma categoryTotals_fold (l : list Expense) : categoryTotals l = fold_left step l [].
Proof. reflexivity. Qed.

Lemma objGet_objSet_same {V : Type} (k : string) (v : V) (o : Obj V) :
  objGet k (objSet k v o) = Some v.
Proof.
  induction o as [|[k' x] o IH]; cbn [objSet objGet].
  - rewrite String.eqb_refl. reflexivity.
  - destruct (String.eqb k' k) eqn:E; cbn [objGet]; rewrite E; [reflexivity | exact IH].
Qed.

Lemma objGet_objSet_other {V : Type} (k c : string) (v : V) (o : Obj V) :
  c <> k -> objGet c (objSet k v o) = objGet c o.
Proof.
  intros Hne. induction o as [|[k' x] o IH]; cbn [objSet objGet].
  - replace (String.eqb k c) with false; [reflexivity|].
    symmetry. apply String.eqb_neq. congruence.
  - destruct (String.eqb k' k) eqn:E; cbn [objGet].
    + apply String.eqb_eq in E. subst k'.
      replace (String.eqb k c) with false; [reflexivity|].
      symmetry. apply String.eqb_neq. congruence.
    + rewrite IH. reflexivity.
Qed.











(** *** Amounts in whole units add up exactly *)

Lemma wholeUnits_units (t : Z) (x : Num.number) :
  0 <= t -> wholeUnits t x -> x = Num.Fin (units t x * 2 ^ t) /\ 0 <= units t x.
Proof.
  intros Ht (m & Hm & ->). cbn [units].
  assert (0 < 2 ^ t) by (apply Z.pow_pos_nonneg; lia).
  rewrite Z.div_mul by lia. split; [reflexivity | exact Hm].
Qed.

Lemma wholeUnits_Fin (t m : Z) : 0 <= m -> wholeUnits t (Num.Fin (m * 2 ^ t)).
Proof. intros Hm. exists m. split; [exact Hm | reflexivity]. Qed.

Lemma units_Fin (t m : Z) : 0 <= t -> units t (Num.Fin (m * 2 ^ t)) = m.
Proof.
  intros Ht. cbn [units]. apply Z.div_mul.
  assert (0 < 2 ^ t) by (apply Z.pow_pos_nonneg; lia). lia.
Qed.

Lemma totalUnits_cons (t : Z) (x : Num.number) (xs : list Num.number) :
  totalUnits t (x :: xs) = units t x + totalUnits t xs.
Proof. reflexivity. Qed.

Lemma totalUnits_nil (t : Z) : totalUnits t [] = 0.
Proof. reflexivity. Qed.

Lemma totalUnits_nonneg (t : Z) (xs : list Num.number) :
  0 <= t -> Forall (wholeUnits t) xs -> 0 <= totalUnits t xs.
Proof.
  intros Ht H. induction H as [|x xs Hx _ IH].
  - rewrite totalUnits_nil. lia.
  - rewrite totalUnits_cons.
    destruct (wholeUnits_units t x Ht Hx) as (_ & Hu). lia.
Qed.

Lemma totalUnits_perm (t : Z) (xs ys : list Num.number) :
  Permutation xs ys -> totalUnits t xs = totalUnits t ys.
Proof.
  intros H.
  induction H as [|x l l' _ IH|x y l|l l' l'' _ IH1 _ IH2];
    rewrite ?totalUnits_cons.
  - reflexivity.
  - rewrite IH. reflexivity.
  - lia.
  - rewrite IH1. exact IH2.
Qed.

Lemma fold_add_units (t : Z) (xs : list Num.number) :
  0 <= t <= 1074 -> Forall (wholeUnits t) xs ->
  forall a, 0 <= a -> a + totalUnits t xs <= 2 ^ 53 ->
  fold_left Num.add xs (Num.Fin (a * 2 ^ t)) = Num.Fin ((a + totalUnits t xs) * 2 ^ t).
Proof.
  intros Ht H. induction H as [|x xs Hx Hxs IH]; intros a Ha Hsum;
    cbn [fold_left].
  - rewrite totalUnits_nil, Z.add_0_r. reflexivity.
  - rewrite totalUnits_cons in *.
    destruct (wholeUnits_units t x (proj1 Ht) Hx) as (Ex & Hu).
    pose proof (totalUnits_nonneg t xs (proj1 Ht) Hxs) as Hn.
    rewrite Ex at 1. rewrite add_quantum by lia.
    rewrite IH by lia. f_equal. lia.
Qed.

Lemma objSet_units (t : Z) (c : string) (m : Z) (o : Obj Num.number) :
  0 <= t <= 1074 -> 0 <= m ->
  Forall (wholeUnits t) (map snd o) ->
  totalUnits t (map snd o) + m <= 2 ^ 53 ->
  Forall (wholeUnits t)
         (map snd (objSet c (Num.add (totalOr0 c o) (Num.Fin (m * 2 ^ t))) o))
  /\ totalUnits t (map snd (objSet c (Num.add (totalOr0 c o) (Num.Fin (m * 2 ^ t))) o))
     = totalUnits t (map snd o) + m.
Proof.
  intros Ht Hm. induction o as [|[k x] o IH]; intros Ho Hsum.
  - unfold totalOr0. cbn [objSet objGet map snd].
    change Num.zero with (Num.Fin (0 * 2 ^ t)).
    cbn [map] in Hsum. rewrite totalUnits_nil in Hsum.
    rewrite add_quantum by lia.
    rewrite totalUnits_cons, !totalUnits_nil, units_Fin by lia.
    split; [constructor; [apply wholeUnits_Fin; lia | constructor] | lia].
  - cbn [map snd] in Ho, Hsum. rewrite totalUnits_cons in Hsum.
    inversion Ho as [|? ? Hx Ho']; subst.
    destruct (wholeUnits_units t x (proj1 Ht) Hx) as (Ex & Hu).
    pose proof (totalUnits_nonneg t _ (proj1 Ht) Ho') as Hn.
    unfold totalOr0. cbn [objSet objGet].
    destruct (String.eqb k c) eqn:E.
    + cbn [map snd]. rewrite !totalUnits_cons.
      rewrite or_zero_id by (rewrite Ex; discriminate).
      rewrite Ex at 1 2. rewrite add_quantum by lia. rewrite units_Fin by lia.
      split; [constructor; [apply wholeUnits_Fin; lia | exact Ho'] | lia].
    + cbn [map snd]. rewrite !totalUnits_cons. fold (totalOr0 c o).
      destruct (IH Ho') as (H1 & H2); [lia|].
      split; [constructor; assumption | rewrite H2; lia].
Qed.

Lemma fold_step_units (t : Z) (l : list Expense) :
  0 <= t <= 1074 ->
  Forall (wholeUnits t) (map amount l) ->
  forall o, Forall (wholeUnits t) (map snd o) ->
            totalUnits t (map snd o) + totalUnits t (map amount l) <= 2 ^ 53 ->
            Forall (wholeUnits t) (map snd (fold_left step l o))
            /\ totalUnits t (map snd (fold_left step l o))
               = totalUnits t (map snd o) + totalUnits t (map amount l).
Proof.
  intros Ht Hl. induction l as [|e l IH]; intros o Ho Hsum; cbn [fold_left map] in *.
  - rewrite totalUnits_nil. split; [exact Ho | lia].
  - rewrite totalUnits_cons in *.
    inversion Hl as [|? ? He Hl']; subst.
    destruct (wholeUnits_units t _ (proj1 Ht) He) as (Ee & Hu).
    pose proof (totalUnits_nonneg t _ (proj1 Ht) Hl') as Hn.
    destruct (objSet_units t (category e) (units t (amount e)) o Ht Hu Ho) as (H1 & H2); [lia|].
    rewrite <- Ee in H1, H2. fold (step o e) in H1, H2.
    destruct (IH Hl' (step o e) H1) as (H3 & H4); [lia|].
    split; [exact H3 | rewrite H4, H2; lia].
Qed.

Lemma sumAmounts_map (l : list Expense) :
  sumAmounts l = fold_left Num.add (map amount l) Num.zero.
Proof.
  unfold sumAmounts. generalize Num.zero. induction l as [|e l IH]; intros a;
    cbn [fold_left map]; [reflexivity | apply IH].
Qed.

Lemma breakdown_adds_up (t : Z) (l : list Expense) :
  0 <= t <= 1074 ->
  Forall (wholeUnits t) (map amount l) ->
  totalUnits t (map amount l) <= 2 ^ 53 ->
  fold_left Num.add (map snd (breakdown l)) Num.zero = sumAmounts l.
Proof.
  intros Ht Hl Hsum.
  destruct (fold_step_units t l Ht Hl [] (Forall_nil _)) as (H1 & H2).
  { cbn [map]. rewrite totalUnits_nil. lia. }
  cbn [map] in H2. rewrite totalUnits_nil in H2. rewrite <- categoryTotals_fold in H1, H2.
  pose proof (Permutation_map snd (breakdown_perm l)) as Hp.
  assert (Hb : Forall (wholeUnits t) (map snd (breakdown l))).
  { eapply Permutation_Forall; [symmetry; exact Hp | exact H1]. }
  rewrite sumAmounts_map.
  change Num.zero with (Num.Fin (0 * 2 ^ t)).
  rewrite !fold_add_units; try assumption; try lia.
  - rewrite (totalUnits_perm t _ _ Hp), H2. reflexivity.
  - rewrite (totalUnits_perm t _ _ Hp), H2. lia.
Qed.

(** *** The month filter *)

Lemma valid_month (y m d y' m' d' : Z) :
  Cal.valid y m d = Some (y', m', d') -> 1 <= m' <= 12.
Proof.
  unfold Cal.valid.
  destruct ((1 <=? m) && (m <=? 12) && (1 <=? d) && (d <=? Cal.daysInMonth y m)) eqn:E;
    [|discriminate].
  intros H. injection H as <- <- <-.
  apply andb_true_iff in E. destruct E as (E & _).
  apply andb_true_iff in E. destruct E as (E & _).
  apply andb_true_iff in E. destruct E as (E1 & E2).
  apply Z.leb_le in E1, E2. lia.
Qed.

Lemma parseDateOnly_month (s : string) (y m d : Z) :
  Cal.parseDateOnly s = Some (y, m, d) -> 1 <= m <= 12.
Proof.
  unfold Cal.parseDateOnly.
  generalize (list_ascii_of_string s) as l. intros l.
  repeat match goal with
         | l : list ascii |- _ => destruct l as [|? l]; try discriminate
         end;
    repeat match goal with
           | |- context [match ?x with Some _ => _ | None => _ end] =>
               destruct x; try discriminate
           | |- context [if ?b then _ else _] => destruct b; try discriminate
           end;
    try (apply valid_month).
Qed.


Lemma sub_one_of_Z (z : Z) : safe z -> Num.sub (Num.of_Z z) Num.one = Num.of_Z (z - 1).
Proof.
  intros Hz. unfold Num.sub.
  assert (E : Num.neg Num.one = Num.of_Z (-1)).
  { rewrite of_Z_exact by (unfold safe; lia). unfold Num.one. cbn [Num.neg].
    replace (-1 * Num.one_k) with (- Num.one_k) by lia. reflexivity. }
  rewrite E. apply add_of_Z; [exact Hz | unfold safe; lia].
Qed.

Lemma to_Z_of_Z (z : Z) : safe z -> Num.to_Z (Num.of_Z z) = Some z.
Proof.
  intros Hz. rewrite of_Z_exact by assumption. cbn [Num.to_Z].
  rewrite Z.land_ones, Z.shiftr_div_pow2 by lia. rewrite <- one_k_eq.
  pose proof one_k_pos. rewrite Z.mod_mul by lia. rewrite Z.eqb_refl.
  rewrite Z.div_mul by lia. reflexivity.
Qed.

Lemma monthName_of_Z (z : Z) :
  1 <= z <= 12 ->
  monthName (Num.sub (Num.of_Z z) Num.one) = nth (Z.to_nat (z - 1)) monthNames "".
Proof.
  intros Hz. rewrite sub_one_of_Z by (unfold safe; lia).
  unfold monthName. rewrite to_Z_of_Z by (unfold safe; lia).
  replace (0 <=? z - 1) with true by (symmetry; apply Z.leb_le; lia).
  apply nth_indep. cbn [monthNames List.length]. lia.
Qed.





(** What that run prints. *)
Example summary_august_output :
  stdout (snd (showSummary env0 summaryAugust (worldOf [lunch; taxi; firstOfSeptember]))) =
  [ "Total expenses for August: $32.5";
    String "010" "Breakdown by category:";
    "  Food: $20";
    "  Travel: $12.5" ].
Proof. reflexivity. Qed.

(** Amounts in half units: the subtotals add up to the total. *)
Example whole_amounts_add_up :
  fold_left Num.add (map snd (breakdown [lunch; taxi; lunchAgain])) Num.zero
  = sumAmounts [lunch; taxi; lunchAgain].
Proof.
  apply (breakdown_adds_up 1073).
  - lia.
  - repeat constructor.
    + exists 40. split; [lia | reflexivity].
    + exists 25. split; [lia | reflexivity].
    + exists 16. split; [lia | reflexivity].
  - cbn [map]. rewrite !totalUnits_cons, totalUnits_nil.
    change (units 1073 (amount lunch)) with 40.
    change (units 1073 (amount taxi)) with 25.
    change (units 1073 (amount lunchAgain)) with 16. lia.
Qed.


(** * Whole runs, files and arguments *)

Import Effects Cases.

(** ** Reading arguments *)

(** X1.  [getArgValue] yields [v] exactly when [v] is the token that follows the
    first occurrence of the flag; whatever that token is (it may be another
    flag), and whatever comes later.  It yields null in every other case:
    the flag does not occur, or its first occurrence is the last token. *)
Theorem getArgValue_reads_value_after_first_flag (args : list string) (flag v : string) :
  getArgValue args flag = Some v <->
  exists pre post, args = pre ++ flag :: v :: post /\ ~ In flag pre.
Proof.
  split.
  - unfold getArgValue, indexOf. intros H.
    destruct (Z.eqb_spec (findIndex (String.eqb flag) args) (-1)) as [E|E];
      [discriminate H|].
    destruct (findIndex_found _ _ E) as (pre & x & post & -> & Hpre & Hx & Hi).
    apply String.eqb_eq in Hx. subst x.
    rewrite Hi in H. rewrite nth_error_after in H.
    destruct (Z.of_nat (List.length pre) + 1 <? _); [|discriminate H].
    cbn [negb andb] in H.
    destruct post as [|v' post]; [discriminate H|].
    cbn [nth_error] in H. injection H as ->.
    exists pre, post. split; [reflexivity|].
    intros Hin. specialize (Hpre flag Hin). rewrite String.eqb_refl in Hpre.
    discriminate Hpre.
  - intros (pre & post & -> & Hn). apply getArgValue_at. exact Hn.
Qed.

(** ** What a run leaves behind *)

(** Loading changes nothing but the error channel. *)
Lemma afterLoad_eq (w : World) :
  afterLoad w = mkWorld (expensesFile w) (budgetsFile w) (otherFiles w) (writes w)
                        (stdout w) (stderr w ++ loadError w).
Proof.
  unfold afterLoad, loadExpenses, loadError.
  destruct w as [ef bf ofs ws so se]; cbn [expensesFile budgetsFile otherFiles writes stdout stderr].
  destruct ef; cbn; rewrite ?app_nil_r; reflexivity.
Qed.

Lemma validateAmount_ok (a : string) (w : World) :
  validAmount a -> validateAmount a w = (Return (Conv.parseFloat a), w).
Proof.
  intros H. unfold validateAmount. rewrite valid_amount_iff. unfold validAmount in H.
  rewrite H. reflexivity.
Qed.

(** [validateAmount] returns the parsed number or throws; it leaves the
    world as it is. *)
Lemma validateAmount_cases (a : string) (w : World) :
  (validAmount a /\ validateAmount a w = (Return (Conv.parseFloat a), w))
  \/ (~ validAmount a /\ validateAmount a w = (Throw InvalidAmount, w)).
Proof.
  unfold validateAmount, validAmount. rewrite valid_amount_iff.
  destruct (Num.ltb Num.zero (Conv.parseFloat a)); [left|right]; split;
    try reflexivity.
  intros H; discriminate H.
Qed.

(** The world a handler leaves when it throws: the world it was given,
    after the store was loaded for every command but [budget], which throws
    before it loads anything. *)
Ltac thrown_or_not :=
  cbv beta iota zeta delta [bind ret throw log logError saveExpenses saveBudgets writeFile fst snd];
  first [ reflexivity | let H := fresh in intros H; discriminate H ].

Lemma thrown_world (env : Env) (command : string) (args : list string) (run : Cmd unit)
  (w : World) (e : Error) :
  handler env command args = Some run ->
  fst (run w) = Throw e ->
  snd (run w) = if String.eqb command "budget" then w else afterLoad w.
Proof.
  unfold handler.
  destruct (String.eqb_spec command "add") as [->|_].
  { intros Hh. injection Hh as <-. unfold addExpense, bind. rewrite loadExpenses_eq.
    destruct (supplied (getArgValue args "--description")); [|thrown_or_not].
    destruct (supplied (getArgValue args "--amount")) as [a|]; [|thrown_or_not].
    cbv beta iota zeta delta [bind ret].
    destruct (validateAmount_cases a (afterLoad w)) as [[_ ->]|[_ ->]]; thrown_or_not. }
  destruct (String.eqb_spec command "update") as [->|_].
  { intros Hh. injection Hh as <-. unfold updateExpense, bind. rewrite loadExpenses_eq.
    destruct (supplied (getArgValue args "--id")) as [i|]; [|thrown_or_not].
    unfold findExpenseById.
    destruct (findIndex (matchesId i) (store w) =? -1); [thrown_or_not|].
    destruct (supplied (getArgValue args "--amount")) as [a|]; [|thrown_or_not].
    cbv beta iota zeta delta [bind ret].
    destruct (validateAmount_cases a (afterLoad w)) as [[_ ->]|[_ ->]]; thrown_or_not. }
  destruct (String.eqb_spec command "delete") as [->|_].
  { intros Hh. injection Hh as <-. unfold deleteExpense, bind. rewrite loadExpenses_eq.
    destruct (supplied (getArgValue args "--id")) as [i|]; [|thrown_or_not].
    destruct (findIndex (matchesId i) (store w) =? -1); thrown_or_not. }
  destruct (String.eqb_spec command "list") as [->|_].
  { intros Hh. injection Hh as <-. unfold listExpenses, bind. rewrite loadExpenses_eq.
    destruct (match supplied (getArgValue args "--category") with
              | Some c => filter (sameCategory c) (store w)
              | None => store w
              end); [thrown_or_not|].
    cbv beta iota zeta delta [bind log]. rewrite !logEach_eq. thrown_or_not. }
  destruct (String.eqb_spec command "summary") as [->|_].
  { intros Hh. injection Hh as <-. unfold showSummary, bind. rewrite loadExpenses_eq.
    destruct (supplied (getArgValue args "--month")) as [m|].
    - destruct (badMonth (Conv.parseInt m)); [thrown_or_not|].
      destruct (supplied (getArgValue args "--category")); [thrown_or_not|].
      destruct (filter (inMonth env (Conv.parseInt m)) (store w)); [thrown_or_not|].
      cbv beta iota zeta delta [bind log ret]. rewrite !logEach_eq. thrown_or_not.
    - destruct (supplied (getArgValue args "--category")); [thrown_or_not|].
      destruct (store w); [thrown_or_not|].
      cbv beta iota zeta delta [bind log ret]. rewrite !logEach_eq. thrown_or_not. }
  destruct (String.eqb_spec command "budget") as [->|_].
  { intros Hh. injection Hh as <-. unfold setBudget.
    destruct (supplied (getArgValue args "--month")) as [m|]; [|thrown_or_not].
    destruct (supplied (getArgValue args "--amount")) as [a|]; [|thrown_or_not].
    destruct (badMonth (Conv.parseInt m)); [thrown_or_not|].
    cbv beta iota zeta delta [bind ret].
    destruct (validateAmount_cases a w) as [[_ ->]|[_ ->]]; [|thrown_or_not].
    unfold loadBudgets.
    destruct (budgetsFile w);
      cbv beta iota zeta delta [bind ret log logError saveBudgets];
      rewrite !loadExpenses_eq;
      match goal with |- context [if ?c then _ else _] => destruct c end;
      thrown_or_not. }
  destruct (String.eqb_spec command "export") as [->|_].
  { intros Hh. injection Hh as <-. unfold exportToCsv, bind. rewrite loadExpenses_eq.
    destruct (store w); thrown_or_not. }
  intros Hh. discriminate Hh.
Qed.

Lemma handler_unknown (env : Env) (command : string) (args : list string) :
  ~ In command commandNames -> handler env command args = None.
Proof.
  unfold commandNames, handler. cbn [In]. intros Hn.
  repeat match goal with
         | |- context [String.eqb command ?s] =>
             destruct (String.eqb_spec command s) as [E|_];
             [exfalso; apply Hn; rewrite E; tauto|]
         end.
  reflexivity.
Qed.

(** X2.  A first argument that is none of the seven command names (they are
    compared exactly, case included) ends the run with exit code 1: the
    line [Unknown command: ...] goes to the error channel, the hint to the
    output, and no file is read or written. *)
Theorem unknown_command_is_rejected (env : Env) (command : string)
  (rest : list string) (w : World) :
  ~ In command commandNames ->
  fst (main env (command :: rest) w) = 1
  /\ sameFiles w (snd (main env (command :: rest) w))
  /\ stderr (snd (main env (command :: rest) w))
     = stderr w ++ [("Unknown command: " ++ command)%string]
  /\ stdout (snd (main env (command :: rest) w))
     = stdout w ++ [("Run " ++ Str.dquote ++ "expense-tracker" ++ Str.dquote
                     ++ " without arguments to see usage information.")%string].
Proof.
  intros Hn. unfold main. rewrite (handler_unknown env command _ Hn).
  unfold sameFiles. cbn. repeat split.
Qed.

(** Witness of X2: [remove --id 1]. *)
Lemma unknown_command_is_rejected_witness :
  fst (main env0 ("remove" :: ["--id"; "1"]) (worldOf [lunch])) = 1
  /\ sameFiles (worldOf [lunch]) (snd (main env0 ("remove" :: ["--id"; "1"]) (worldOf [lunch])))
  /\ stderr (snd (main env0 ("remove" :: ["--id"; "1"]) (worldOf [lunch])))
     = stderr (worldOf [lunch]) ++ ["Unknown command: remove"]
  /\ stdout (snd (main env0 ("remove" :: ["--id"; "1"]) (worldOf [lunch])))
     = stdout (worldOf [lunch])
       ++ [("Run " ++ Str.dquote ++ "expense-tracker" ++ Str.dquote
            ++ " without arguments to see usage information.")%string].
Proof.
  apply (unknown_command_is_rejected env0 "remove" ["--id"; "1"] (worldOf [lunch])).
  intros H. repeat (destruct H as [H|H]; [discriminate H|]). exact H.
Defined.

(** X3.  When a command throws one of the errors of the script (a missing
    argument, an invalid amount, an invalid month, an identifier not found),
    the run exits with code 1, has written no file and printed nothing on
    the output; the error channel gets the line [Error: ] followed by the
    message of that error, after the report of an unreadable
    [expenses.json] for every command but [budget], which fails before it
    loads the file. *)
Theorem failed_command_changes_nothing (env : Env) (command : string)
  (rest : list string) (run : Cmd unit) (w : World) (e : Error) :
  handler env command (command :: rest) = Some run ->
  fst (run w) = Throw e ->
  fst (main env (command :: rest) w) = 1
  /\ sameFiles w (snd (main env (command :: rest) w))
  /\ stdout (snd (main env (command :: rest) w)) = stdout w
  /\ stderr (snd (main env (command :: rest) w))
     = stderr w ++ (if String.eqb command "budget" then [] else loadError w)
       ++ [("Error: " ++ message e)%string].
Proof.
  intros Hr Ht.
  pose proof (thrown_world env command (command :: rest) run w e Hr Ht) as Hw.
  unfold main. rewrite Hr.
  destruct (run w) as [[[]|e'] w'] eqn:Erun; cbn [fst snd] in *; [discriminate Ht|].
  injection Ht as ->. subst w'.
  unfold logError, sameFiles.
  destruct (String.eqb command "budget").
  - cbn [fst snd expensesFile budgetsFile otherFiles writes stdout stderr app].
    repeat split.
  - rewrite afterLoad_eq.
    cbn [fst snd expensesFile budgetsFile otherFiles writes stdout stderr].
    rewrite <- app_assoc. repeat split.
Qed.

(** Witness of X3: [add --amount -5], which lacks a description. *)
Lemma failed_command_changes_nothing_witness :
  fst (main env0 ("add" :: ["--amount"; "-5"]) (worldOf [lunch])) = 1
  /\ sameFiles (worldOf [lunch]) (snd (main env0 ("add" :: ["--amount"; "-5"]) (worldOf [lunch])))
  /\ stdout (snd (main env0 ("add" :: ["--amount"; "-5"]) (worldOf [lunch])))
     = stdout (worldOf [lunch])
  /\ stderr (snd (main env0 ("add" :: ["--amount"; "-5"]) (worldOf [lunch])))
     = stderr (worldOf [lunch])
       ++ (if String.eqb "add" "budget" then [] else loadError (worldOf [lunch]))
       ++ [("Error: "
            ++ message (MissingArgument "Description is required (--description)"))%string].
Proof.
  apply (failed_command_changes_nothing
           env0 "add" ["--amount"; "-5"] (addExpense env0 ("add" :: ["--amount"; "-5"]))
           (worldOf [lunch]) (MissingArgument "Description is required (--description)")).
  - reflexivity.
  - reflexivity.
Defined.

(** The world after a handler, field by field. *)
Ltac run_out :=
  cbv beta iota zeta delta [bind ret throw log logError saveExpenses saveBudgets writeFile];
  rewrite ?logEach_eq, ?afterLoad_eq;
  cbn [fst snd expensesFile budgetsFile otherFiles writes stdout stderr].

Lemma addExpense_frame (env : Env) (args : list string) (w : World) :
  budgetsFile (snd (addExpense env args w)) = budgetsFile w
  /\ otherFiles (snd (addExpense env args w)) = otherFiles w.
Proof.
  unfold addExpense, bind. rewrite loadExpenses_eq.
  destruct (supplied (getArgValue args "--description")); [|run_out; split; reflexivity].
  destruct (supplied (getArgValue args "--amount")) as [a|]; [|run_out; split; reflexivity].
  cbv beta iota zeta delta [bind ret].
  destruct (validateAmount_cases a (afterLoad w)) as [[_ ->]|[_ ->]];
    run_out; split; reflexivity.
Qed.

Lemma updateExpense_frame (args : list string) (w : World) :
  budgetsFile (snd (updateExpense args w)) = budgetsFile w
  /\ otherFiles (snd (updateExpense args w)) = otherFiles w.
Proof.
  unfold updateExpense, bind. rewrite loadExpenses_eq.
  destruct (supplied (getArgValue args "--id")) as [i|]; [|run_out; split; reflexivity].
  unfold findExpenseById.
  destruct (findIndex (matchesId i) (store w) =? -1); [run_out; split; reflexivity|].
  destruct (supplied (getArgValue args "--amount")) as [a|]; [|run_out; split; reflexivity].
  cbv beta iota zeta delta [bind ret].
  destruct (validateAmount_cases a (afterLoad w)) as [[_ ->]|[_ ->]];
    run_out; split; reflexivity.
Qed.

Lemma deleteExpense_frame (args : list string) (w : World) :
  budgetsFile (snd (deleteExpense args w)) = budgetsFile w
  /\ otherFiles (snd (deleteExpense args w)) = otherFiles w.
Proof.
  unfold deleteExpense, bind. rewrite loadExpenses_eq.
  destruct (supplied (getArgValue args "--id")) as [i|]; [|run_out; split; reflexivity].
  destruct (findIndex (matchesId i) (store w) =? -1); run_out; split; reflexivity.
Qed.

Lemma listExpenses_frame (args : list string) (w : World) :
  sameFiles w (snd (listExpenses args w)).
Proof.
  unfold listExpenses, bind, sameFiles. rewrite loadExpenses_eq.
  destruct (match supplied (getArgValue args "--category") with
            | Some c => filter (sameCategory c) (store w)
            | None => store w
            end); run_out; repeat split.
Qed.

Lemma showSummary_frame (env : Env) (args : list string) (w : World) :
  sameFiles w (snd (showSummary env args w)).
Proof.
  unfold showSummary, bind, sameFiles. rewrite loadExpenses_eq.
  destruct (supplied (getArgValue args "--month")) as [m|].
  - destruct (badMonth (Conv.parseInt m)); [run_out; repeat split|].
    destruct (supplied (getArgValue args "--category")); [run_out; repeat split|].
    destruct (filter (inMonth env (Conv.parseInt m)) (store w)); run_out; repeat split.
  - destruct (supplied (getArgValue args "--category")); [run_out; repeat split|].
    destruct (store w); run_out; repeat split.
Qed.

Lemma setBudget_frame (env : Env) (args : list string) (w : World) :
  expensesFile (snd (setBudget env args w)) = expensesFile w
  /\ otherFiles (snd (setBudget env args w)) = otherFiles w.
Proof.
  unfold setBudget.
  destruct (supplied (getArgValue args "--month")) as [m|]; [|run_out; split; reflexivity].
  destruct (supplied (getArgValue args "--amount")) as [a|]; [|run_out; split; reflexivity].
  destruct (badMonth (Conv.parseInt m)); [run_out; split; reflexivity|].
  cbv beta iota zeta delta [bind ret].
  destruct (validateAmount_cases a w) as [[_ ->]|[_ ->]]; [|run_out; split; reflexivity].
  unfold loadBudgets.
  destruct (budgetsFile w);
    cbv beta iota zeta delta [bind ret log logError saveBudgets];
    rewrite !loadExpenses_eq;
    match goal with |- context [if ?c then _ else _] => destruct c end;
    run_out; split; reflexivity.
Qed.

(** X4.  Whatever the arguments and the outcome: [list] and [summary] write no
    file; [add], [update] and [delete] leave [budgets.json] and every other
    file than [expenses.json] as they are; [budget] leaves [expenses.json]
    and every other file than [budgets.json] as they are. *)
Theorem handlers_keep_to_their_files (env : Env) (args : list string) (w : World) :
  sameFiles w (snd (listExpenses args w))
  /\ sameFiles w (snd (showSummary env args w))
  /\ (budgetsFile (snd (addExpense env args w)) = budgetsFile w
      /\ otherFiles (snd (addExpense env args w)) = otherFiles w)
  /\ (budgetsFile (snd (updateExpense args w)) = budgetsFile w
      /\ otherFiles (snd (updateExpense args w)) = otherFiles w)
  /\ (budgetsFile (snd (deleteExpense args w)) = budgetsFile w
      /\ otherFiles (snd (deleteExpense args w)) = otherFiles w)
  /\ (expensesFile (snd (setBudget env args w)) = expensesFile w
      /\ otherFiles (snd (setBudget env args w)) = otherFiles w).
Proof.
  split; [apply listExpenses_frame|].
  split; [apply showSummary_frame|].
  split; [apply addExpense_frame|].
  split; [apply updateExpense_frame|].
  split; [apply deleteExpense_frame|].
  apply setBudget_frame.
Qed.

Ltac same_run :=
  cbv beta iota zeta delta [bind ret throw log logError saveExpenses withBudgets];
  rewrite ?logEach_eq, ?afterLoad_eq;
  cbn [fst snd expensesFile budgetsFile otherFiles writes stdout stderr];
  reflexivity.

Lemma loadExpenses_withBudgets (b : File (Obj Num.number)) (w : World) :
  loadExpenses (withBudgets b w) = (Return (store w), withBudgets b (afterLoad w)).
Proof.
  rewrite loadExpenses_eq, !afterLoad_eq. unfold store, loadError, withBudgets.
  cbn [expensesFile budgetsFile otherFiles writes stdout stderr]. reflexivity.
Qed.

Lemma addExpense_withBudgets (env : Env) (args : list string) (b : File (Obj Num.number))
  (w : World) :
  addExpense env args (withBudgets b w)
  = (fst (addExpense env args w), withBudgets b (snd (addExpense env args w))).
Proof.
  unfold addExpense, bind. rewrite loadExpenses_withBudgets, loadExpenses_eq.
  destruct (supplied (getArgValue args "--description")); [|same_run].
  destruct (supplied (getArgValue args "--amount")) as [a|]; [|same_run].
  cbv beta iota zeta delta [bind ret].
  destruct (validateAmount_cases a (withBudgets b (afterLoad w))) as [[H1 ->]|[H1 ->]];
    destruct (validateAmount_cases a (afterLoad w)) as [[H2 ->]|[H2 ->]];
    first [contradiction | same_run].
Qed.

Lemma updateExpense_withBudgets (args : list string) (b : File (Obj Num.number))
  (w : World) :
  updateExpense args (withBudgets b w)
  = (fst (updateExpense args w), withBudgets b (snd (updateExpense args w))).
Proof.
  unfold updateExpense, bind. rewrite loadExpenses_withBudgets, loadExpenses_eq.
  destruct (supplied (getArgValue args "--id")) as [i|]; [|same_run].
  unfold findExpenseById.
  destruct (findIndex (matchesId i) (store w) =? -1); [same_run|].
  destruct (supplied (getArgValue args "--amount")) as [a|]; [|same_run].
  cbv beta iota zeta delta [bind ret].
  destruct (validateAmount_cases a (withBudgets b (afterLoad w))) as [[H1 ->]|[H1 ->]];
    destruct (validateAmount_cases a (afterLoad w)) as [[H2 ->]|[H2 ->]];
    first [contradiction | same_run].
Qed.

Lemma deleteExpense_withBudgets (args : list string) (b : File (Obj Num.number))
  (w : World) :
  deleteExpense args (withBudgets b w)
  = (fst (deleteExpense args w), withBudgets b (snd (deleteExpense args w))).
Proof.
  unfold deleteExpense, bind. rewrite loadExpenses_withBudgets, loadExpenses_eq.
  destruct (supplied (getArgValue args "--id")) as [i|]; [|same_run].
  destruct (findIndex (matchesId i) (store w) =? -1); same_run.
Qed.

Lemma listExpenses_withBudgets (args : list string) (b : File (Obj Num.number))
  (w : World) :
  listExpenses args (withBudgets b w)
  = (fst (listExpenses args w), withBudgets b (snd (listExpenses args w))).
Proof.
  unfold listExpenses, bind. rewrite loadExpenses_withBudgets, loadExpenses_eq.
  destruct (match supplied (getArgValue args "--category") with
            | Some c => filter (sameCategory c) (store w)
            | None => store w
            end); same_run.
Qed.

Lemma showSummary_withBudgets (env : Env) (args : list string)
  (b : File (Obj Num.number)) (w : World) :
  showSummary env args (withBudgets b w)
  = (fst (showSummary env args w), withBudgets b (snd (showSummary env args w))).
Proof.
  unfold showSummary, bind. rewrite loadExpenses_withBudgets, loadExpenses_eq.
  destruct (supplied (getArgValue args "--month")) as [m|].
  - destruct (badMonth (Conv.parseInt m)); [same_run|].
    destruct (supplied (getArgValue args "--category")); [same_run|].
    destruct (filter (inMonth env (Conv.parseInt m)) (store w)); same_run.
  - destruct (supplied (getArgValue args "--category")); [same_run|].
    destruct (store w); same_run.
Qed.

(** X5.  [add], [update], [delete], [list] and [summary] never read
    [budgets.json]: with any other content of that file (absent and
    unreadable included) they have the same outcome, print the same lines
    and leave the same [expenses.json].  A budget on file is neither
    enforced nor reported by them. *)
Theorem budgets_are_read_by_budget_only (env : Env) (args : list string)
  (b : File (Obj Num.number)) (w : World) :
  addExpense env args (withBudgets b w)
  = (fst (addExpense env args w), withBudgets b (snd (addExpense env args w)))
  /\ updateExpense args (withBudgets b w)
     = (fst (updateExpense args w), withBudgets b (snd (updateExpense args w)))
  /\ deleteExpense args (withBudgets b w)
     = (fst (deleteExpense args w), withBudgets b (snd (deleteExpense args w)))
  /\ listExpenses args (withBudgets b w)
     = (fst (listExpenses args w), withBudgets b (snd (listExpenses args w)))
  /\ showSummary env args (withBudgets b w)
     = (fst (showSummary env args w), withBudgets b (snd (showSummary env args w))).
Proof.
  split; [apply addExpense_withBudgets|].
  split; [apply updateExpense_withBudgets|].
  split; [apply deleteExpense_withBudgets|].
  split; [apply listExpenses_withBudgets|].
  apply showSummary_withBudgets.
Qed.

(** ** add *)

Ltac nonempty := let H := fresh in intros H; discriminate H.

(** The world after a successful [add]. *)
Lemma addExpense_run (env : Env) (args : list string) (w : World) (d a : string) :
  getArgValue args "--description" = Some d -> d <> "" ->
  getArgValue args "--amount" = Some a -> a <> "" ->
  validAmount a ->
  addExpense env args w =
  (Return tt,
   mkWorld (Stored (store w ++ [newRecord env args w d a])) (budgetsFile w) (otherFiles w)
           (writes w ++ ["expenses.json"])
           (stdout w ++ [("Expense added successfully (ID: "
                          ++ Conv.toString (getNextId (store w)) ++ ")")%string])
           (stderr w ++ loadError w)).
Proof.
  intros Hd Hd' Ha Ha' Hv.
  apply supplied_Some in Hd; [|exact Hd']. apply supplied_Some in Ha; [|exact Ha'].
  unfold addExpense, bind. rewrite loadExpenses_eq, Hd, Ha.
  rewrite (validateAmount_ok a _ Hv). run_out. reflexivity.
Qed.

(** X6.  On a store whose numbers are finite, an [add] with a non-empty
    description and a non-empty amount that parses to a finite number above
    zero succeeds: it appends one record to the records on file, which it
    leaves as they are and in their order; the record carries the next
    identifier, the date of the day, the trimmed description, the parsed
    amount and the trimmed category.  It writes [expenses.json] once and
    prints the identifier. *)
Theorem add_appends_one_record (env : Env) (args : list string) (w : World) (d a : string) :
  getArgValue args "--description" = Some d -> d <> "" ->
  getArgValue args "--amount" = Some a -> a <> "" ->
  validAmount a -> finite (Conv.parseFloat a) ->
  Forall storable (store w) ->
  fst (addExpense env args w) = Return tt
  /\ expensesFile (snd (addExpense env args w))
     = Stored (store w ++
               [mkExpense (getNextId (store w)) (today env) (Str.trim d) (Conv.parseFloat a)
                          (Str.trim (orElse (getArgValue args "--category") "General"))])
  /\ writes (snd (addExpense env args w)) = writes w ++ ["expenses.json"]
  /\ stdout (snd (addExpense env args w))
     = stdout w ++ [("Expense added successfully (ID: "
                     ++ Conv.toString (getNextId (store w)) ++ ")")%string].
Proof.
  intros Hd Hd' Ha Ha' Hv _ _.
  rewrite (addExpense_run env args w d a Hd Hd' Ha Ha' Hv).
  cbn [fst snd expensesFile writes stdout]. repeat split.
Qed.

(** Witness of X6: [add --description Dinner --amount 10 --category Food] on
    a store of two records. *)
Lemma add_appends_one_record_witness :
  fst (addExpense env0 addDinner (worldOf [lunch; taxi])) = Return tt
  /\ expensesFile (snd (addExpense env0 addDinner (worldOf [lunch; taxi])))
     = Stored (store (worldOf [lunch; taxi]) ++
               [mkExpense (getNextId (store (worldOf [lunch; taxi]))) (today env0)
                          (Str.trim "Dinner") (Conv.parseFloat "10")
                          (Str.trim (orElse (getArgValue addDinner "--category") "General"))])
  /\ writes (snd (addExpense env0 addDinner (worldOf [lunch; taxi])))
     = writes (worldOf [lunch; taxi]) ++ ["expenses.json"]
  /\ stdout (snd (addExpense env0 addDinner (worldOf [lunch; taxi])))
     = stdout (worldOf [lunch; taxi])
       ++ [("Expense added successfully (ID: "
            ++ Conv.toString (getNextId (store (worldOf [lunch; taxi]))) ++ ")")%string].
Proof.
  apply (add_appends_one_record env0 addDinner (worldOf [lunch; taxi]) "Dinner" "10").
  - reflexivity.
  - nonempty.
  - reflexivity.
  - nonempty.
  - reflexivity.
  - exact I.
  - repeat (exact I || apply Forall_nil || apply Forall_cons || split).
Defined.

(** X7.  An [add] without a category (none given, the flag last without a
    value, or the empty string) files the record under [General]. *)
Theorem add_files_under_general_by_default (env : Env) (args : list string) (w : World)
  (d a : string) :
  getArgValue args "--description" = Some d -> d <> "" ->
  getArgValue args "--amount" = Some a -> a <> "" ->
  validAmount a ->
  noValue (getArgValue args "--category") ->
  exists e, expensesFile (snd (addExpense env args w)) = Stored (store w ++ [e])
            /\ category e = "General".
Proof.
  intros Hd Hd' Ha Ha' Hv Hc.
  rewrite (addExpense_run env args w d a Hd Hd' Ha Ha' Hv).
  cbn [snd expensesFile]. eexists. split; [reflexivity|].
  unfold newRecord. cbn [category].
  destruct Hc as [-> | ->]; reflexivity.
Qed.

(** Witness of X7: [add --description Coffee --amount 3.5]. *)
Lemma add_files_under_general_by_default_witness :
  exists e, expensesFile (snd (addExpense env0 addCoffee (worldOf [lunch])))
            = Stored (store (worldOf [lunch]) ++ [e])
            /\ category e = "General".
Proof.
  apply (add_files_under_general_by_default env0 addCoffee (worldOf [lunch]) "Coffee" "3.5").
  - reflexivity.
  - nonempty.
  - reflexivity.
  - nonempty.
  - reflexivity.
  - left. reflexivity.
Defined.

Lemma trimStart_blank (s : string) : blank s = true -> Str.trimStart s = "".
Proof.
  induction s as [|c r IH]; cbn [blank Str.trimStart]; [reflexivity|].
  intros H. apply andb_prop in H. destruct H as [Hc Hr]. rewrite Hc. exact (IH Hr).
Qed.

Lemma trim_blank (s : string) : blank s = true -> Str.trim s = "".
Proof.
  intros H. unfold Str.trim. rewrite (trimStart_blank s H). reflexivity.
Qed.

(** X8.  The check that a description is given lets a description of white
    space only through: the add succeeds and the record it appends has the
    empty description, the description being trimmed after the check. *)
Theorem add_accepts_a_blank_description (env : Env) (args : list string) (w : World)
  (d a : string) :
  getArgValue args "--description" = Some d -> d <> "" -> blank d = true ->
  getArgValue args "--amount" = Some a -> a <> "" ->
  validAmount a ->
  fst (addExpense env args w) = Return tt
  /\ exists e, expensesFile (snd (addExpense env args w)) = Stored (store w ++ [e])
               /\ description e = "".
Proof.
  intros Hd Hd' Hb Ha Ha' Hv.
  rewrite (addExpense_run env args w d a Hd Hd' Ha Ha' Hv).
  cbn [fst snd expensesFile]. split; [reflexivity|].
  eexists. split; [reflexivity|].
  unfold newRecord. cbn [description]. apply trim_blank. exact Hb.
Qed.

(** Witness of X8: a description of three spaces. *)
Lemma add_accepts_a_blank_description_witness :
  fst (addExpense env0 addBlank (worldOf [lunch])) = Return tt
  /\ exists e, expensesFile (snd (addExpense env0 addBlank (worldOf [lunch])))
               = Stored (store (worldOf [lunch]) ++ [e])
               /\ description e = "".
Proof.
  apply (add_accepts_a_blank_description env0 addBlank (worldOf [lunch]) "   " "10").
  - reflexivity.
  - nonempty.
  - reflexivity.
  - reflexivity.
  - nonempty.
  - reflexivity.
Defined.

(** X9.  A successful [add] (a non-empty description, an amount that parses
    to a finite number above zero) on a missing [expenses.json] creates it
    with the one record, numbered 1.  On an [expenses.json] that cannot be
    read or parsed it does the same: the failure is reported on the error
    channel, the add goes on from an empty list and the file is replaced by
    the one new record. *)
Theorem add_starts_over_without_a_readable_file (env : Env) (args : list string)
  (w : World) (d a : string) :
  getArgValue args "--description" = Some d -> d <> "" ->
  getArgValue args "--amount" = Some a -> a <> "" ->
  validAmount a -> finite (Conv.parseFloat a) ->
  fst (addExpense env args w) = Return tt
  /\ (expensesFile w = Absent ->
      expensesFile (snd (addExpense env args w))
      = Stored [mkExpense Num.one (today env) (Str.trim d) (Conv.parseFloat a)
                          (Str.trim (orElse (getArgValue args "--category") "General"))]
      /\ stderr (snd (addExpense env args w)) = stderr w)
  /\ (forall why, expensesFile w = Unreadable why ->
      expensesFile (snd (addExpense env args w))
      = Stored [mkExpense Num.one (today env) (Str.trim d) (Conv.parseFloat a)
                          (Str.trim (orElse (getArgValue args "--category") "General"))]
      /\ stderr (snd (addExpense env args w))
         = stderr w ++ [("Error loading expenses: " ++ why)%string]).
Proof.
  intros Hd Hd' Ha Ha' Hv _.
  rewrite (addExpense_run env args w d a Hd Hd' Ha Ha' Hv).
  cbn [fst snd expensesFile stderr]. unfold newRecord, store, loadError.
  split; [reflexivity|]. split.
  - intros ->. rewrite app_nil_r. split; reflexivity.
  - intros why ->. split; reflexivity.
Qed.

(** Witness of X9: [add --description Coffee --amount 3.5] on a truncated file. *)
Lemma add_starts_over_without_a_readable_file_witness :
  expensesFile (snd (addExpense env0 addCoffee brokenWorld))
  = Stored [mkExpense Num.one (today env0) (Str.trim "Coffee") (Conv.parseFloat "3.5")
                      (Str.trim (orElse (getArgValue addCoffee "--category") "General"))]
  /\ stderr (snd (addExpense env0 addCoffee brokenWorld))
     = stderr brokenWorld ++ ["Error loading expenses: Unexpected end of JSON input"].
Proof.
  apply (proj2 (proj2 (add_starts_over_without_a_readable_file
                         env0 addCoffee brokenWorld "Coffee" "3.5"
                         eq_refl ltac:(nonempty) eq_refl ltac:(nonempty) eq_refl
                         I))
               "Unexpected end of JSON input" eq_refl).
Defined.

(** X10.  After a successful [add] (a non-empty description, an amount that
    parses to a finite number above zero) on a store of ASCII text whose
    numbers are finite, with an ASCII description, a [list] without category
    prints the table of the records that were on file, in their order,
    followed by the row of the new record. *)
Theorem added_record_is_listed_last (env : Env) (addArgs listArgs : list string)
  (w : World) (d a : string) :
  getArgValue addArgs "--description" = Some d -> d <> "" ->
  getArgValue addArgs "--amount" = Some a -> a <> "" ->
  validAmount a -> finite (Conv.parseFloat a) ->
  Forall storable (store w) ->
  Forall plainRow (store w) ->
  Str.plain d = true -> Str.plain (today env) = true ->
  noValue (getArgValue listArgs "--category") ->
  stdout (snd (listExpenses listArgs (snd (addExpense env addArgs w)))) =
  stdout (snd (addExpense env addArgs w)) ++
  "ID  Date       Description                Amount    Category"
  :: "--  ---------- -------------------------- --------- ----------"
  :: map listRow (store w)
  ++ [listRow (mkExpense (getNextId (store w)) (today env) (Str.trim d) (Conv.parseFloat a)
                         (Str.trim (orElse (getArgValue addArgs "--category") "General")))].
Proof.
  intros Hd Hd' Ha Ha' Hv _ _ _ _ _ Hc.
  assert (Hs : supplied (getArgValue listArgs "--category") = None)
    by (destruct Hc as [-> | ->]; reflexivity).
  rewrite (addExpense_run env addArgs w d a Hd Hd' Ha Ha' Hv). cbn [snd].
  match goal with |- context [listExpenses listArgs ?w1] =>
    assert (Hst : store w1 = store w ++ [newRecord env addArgs w d a]) by reflexivity;
    unfold listExpenses, bind; rewrite (loadExpenses_eq w1), Hs, Hst
  end.
  unfold newRecord.
  destruct (store w) as [|x l]; cbn [app];
    run_out; rewrite <- ?app_assoc; cbn [app map]; rewrite ?map_app; reflexivity.
Qed.

(** Witness of X10: [add] of a dinner, then [list]. *)
Lemma added_record_is_listed_last_witness :
  stdout (snd (listExpenses listAll (snd (addExpense env0 addDinner (worldOf [lunch; taxi]))))) =
  stdout (snd (addExpense env0 addDinner (worldOf [lunch; taxi]))) ++
  "ID  Date       Description                Amount    Category"
  :: "--  ---------- -------------------------- --------- ----------"
  :: map listRow (store (worldOf [lunch; taxi]))
  ++ [listRow (mkExpense (getNextId (store (worldOf [lunch; taxi]))) (today env0)
                         (Str.trim "Dinner") (Conv.parseFloat "10")
                         (Str.trim (orElse (getArgValue addDinner "--category") "General")))].
Proof.
  apply (added_record_is_listed_last env0 addDinner listAll (worldOf [lunch; taxi]) "Dinner" "10").
  - reflexivity.
  - nonempty.
  - reflexivity.
  - nonempty.
  - reflexivity.
  - exact I.
  - repeat (exact I || apply Forall_nil || apply Forall_cons || split).
  - repeat constructor.
  - reflexivity.
  - reflexivity.
  - left. reflexivity.
Defined.

(** ** delete and update *)




(** X12.  A [delete] whose non-empty identifier argument matches no record
    (which includes arguments that are no number) fails with NotFound, whose
    message quotes the argument as given; it writes no file and prints
    nothing on the output. *)
Theorem delete_unknown_id (args : list string) (w : World) (idArg : string) :
  getArgValue args "--id" = Some idArg -> idArg <> "" ->
  (forall e, In e (store w) -> matchesId idArg e = false) ->
  fst (deleteExpense args w) = Throw (NotFound idArg)
  /\ sameFiles w (snd (deleteExpense args w))
  /\ stdout (snd (deleteExpense args w)) = stdout w.
Proof.
  intros Hid Hid' Hnone. apply supplied_Some in Hid; [|exact Hid'].
  unfold deleteExpense, bind, sameFiles. rewrite loadExpenses_eq, Hid.
  rewrite (findIndex_none _ _ Hnone). run_out. repeat split.
Qed.

(** Witness of X12: [delete --id 7] on the identifiers 1 and 2. *)
Lemma delete_unknown_id_witness :
  fst (deleteExpense delete7 (worldOf [lunch; taxi])) = Throw (NotFound "7")
  /\ sameFiles (worldOf [lunch; taxi]) (snd (deleteExpense delete7 (worldOf [lunch; taxi])))
  /\ stdout (snd (deleteExpense delete7 (worldOf [lunch; taxi]))) = stdout (worldOf [lunch; taxi]).
Proof.
  apply (delete_unknown_id delete7 (worldOf [lunch; taxi]) "7").
  - reflexivity.
  - nonempty.
  - intros e [<-|[<-|[]]]; reflexivity.
Defined.






(** ** list and summary *)

(** X14.  On a store whose dates and descriptions are ASCII text, a [list]
    without a category (none given, the flag last without a value, or the
    empty string) prints the two header lines and one row per record, all
    records in the order of the file; on an empty store it prints [No
    expenses found] only. *)
Theorem list_without_category_shows_all (args : list string) (w : World) :
  noValue (getArgValue args "--category") ->
  Forall plainRow (store w) ->
  fst (listExpenses args w) = Return tt
  /\ stdout (snd (listExpenses args w)) =
     stdout w ++
     match store w with
     | [] => ["No expenses found"]
     | _ :: _ =>
         "ID  Date       Description                Amount    Category"
         :: "--  ---------- -------------------------- --------- ----------"
         :: map listRow (store w)
     end.
Proof.
  intros Hc _.
  assert (Hs : supplied (getArgValue args "--category") = None)
    by (destruct Hc as [-> | ->]; reflexivity).
  unfold listExpenses, bind. rewrite loadExpenses_eq, Hs.
  destruct (store w) as [|e l]; run_out; rewrite <- ?app_assoc; split; reflexivity.
Qed.

(** Witness of X14: [list] on a store of two records. *)
Lemma list_without_category_shows_all_witness :
  fst (listExpenses listAll (worldOf [lunch; taxi])) = Return tt
  /\ stdout (snd (listExpenses listAll (worldOf [lunch; taxi]))) =
     stdout (worldOf [lunch; taxi]) ++
     match store (worldOf [lunch; taxi]) with
     | [] => ["No expenses found"]
     | _ :: _ =>
         "ID  Date       Description                Amount    Category"
         :: "--  ---------- -------------------------- --------- ----------"
         :: map listRow (store (worldOf [lunch; taxi]))
     end.
Proof.
  apply (list_without_category_shows_all listAll (worldOf [lunch; taxi])).
  - left. reflexivity.
  - repeat constructor.
Defined.

Lemma str_length_app (a b : string) :
  String.length (a ++ b) = (String.length a + String.length b)%nat.
Proof.
  induction a as [|c a IH]; cbn [String.append String.length]; [reflexivity|].
  rewrite IH. reflexivity.
Qed.

Lemma length_spaces (n : nat) : String.length (Str.spaces n) = n.
Proof.
  induction n as [|n IH]; cbn [Str.spaces String.length]; [reflexivity|].
  rewrite IH. reflexivity.
Qed.

(** [padEnd] pads, and never cuts. *)
Lemma length_padEnd (s : string) (n : nat) :
  String.length (Str.padEnd s n) = Nat.max (String.length s) n.
Proof.
  unfold Str.padEnd. rewrite str_length_app, length_spaces. lia.
Qed.

Lemma substring_whole (a b : string) :
  String.substring 0 (String.length a) (a ++ b) = a.
Proof.
  induction a as [|c a IH]; cbn [String.append String.length String.substring].
  - destruct b; reflexivity.
  - rewrite IH. reflexivity.
Qed.

Lemma substring_skip (a b : string) (n m : nat) :
  String.substring (String.length a + n) m (a ++ b) = String.substring n m b.
Proof.
  induction a as [|c a IH]; cbn [String.append String.length Nat.add String.substring];
    [reflexivity | exact IH].
Qed.

Lemma substring_all (a : string) : String.substring 0 (String.length a) a = a.
Proof.
  induction a as [|c a IH]; cbn [String.length String.substring]; [reflexivity|].
  rewrite IH. reflexivity.
Qed.

Lemma substring_last (p a : string) (n : nat) :
  String.length p = n ->
  String.substring n (String.length a) (p ++ a) = a.
Proof.
  intros <-. rewrite <- (Nat.add_0_r (String.length p)), substring_skip.
  apply substring_all.
Qed.

(** The field [a] sits in [p ++ a ++ r] right after [p]. *)
Lemma substring_at (p a r : string) (n : nat) :
  String.length p = n ->
  String.substring n (String.length a) (p ++ a ++ r) = a.
Proof.
  intros <-. rewrite <- (Nat.add_0_r (String.length p)), substring_skip.
  apply substring_whole.
Qed.

(** X15.  When the identifier has at most 2 characters, the date at most 10,
    the description at most 26 and the amount with its currency sign at
    most 9, all of ASCII text, the row of a record has its fields in the
    columns of the header: the identifier is found at the start, as [ID] is
    in the header, the date 4 characters in, as [Date] is, the description
    15 characters in, the amount 42 and the category 52; the row is 52
    characters and the category long. *)
Theorem list_rows_line_up_with_the_header (e : Expense) :
  plainRow e -> plainCategory e ->
  (String.length (Conv.toString (id e)) <= 2)%nat ->
  (String.length (date e) <= 10)%nat ->
  (String.length (description e) <= 26)%nat ->
  (String.length ("$" ++ Conv.toString (amount e)) <= 9)%nat ->
  (String.substring 0 (String.length (Conv.toString (id e))) (listRow e)
   = Conv.toString (id e)
   /\ String.substring 0 2 header = "ID")
  /\ (String.substring 4 (String.length (date e)) (listRow e) = date e
      /\ String.substring 4 4 header = "Date")
  /\ (String.substring 15 (String.length (description e)) (listRow e) = description e
      /\ String.substring 15 11 header = "Description")
  /\ (String.substring 42 (String.length ("$" ++ Conv.toString (amount e))) (listRow e)
      = ("$" ++ Conv.toString (amount e))%string
      /\ String.substring 42 6 header = "Amount")
  /\ (String.substring 52 (String.length (category e)) (listRow e) = category e
      /\ String.substring 52 8 header = "Category")
  /\ String.length (listRow e) = (52 + String.length (category e))%nat.
Proof.
  intros _ _ Hi Hd Hs Ha.
  change ("$" ++ Conv.toString (amount e))%string with (formatCurrency (amount e)) in *.
  unfold listRow, Str.padEnd.
  set (i := Conv.toString (id e)) in *.
  set (a := formatCurrency (amount e)) in *.
  set (s1 := (Str.spaces (2 - String.length i) ++ "  ")%string).
  set (s2 := (Str.spaces (10 - String.length (date e)) ++ " ")%string).
  set (s3 := (Str.spaces (26 - String.length (description e)) ++ " ")%string).
  set (s4 := (Str.spaces (9 - String.length a) ++ " ")%string).
  assert (L1 : String.length (i ++ s1) = 4%nat).
  { unfold s1. rewrite !str_length_app, length_spaces. cbn [String.length]. lia. }
  assert (L2 : String.length (date e ++ s2) = 11%nat).
  { unfold s2. rewrite !str_length_app, length_spaces. cbn [String.length]. lia. }
  assert (L3 : String.length (description e ++ s3) = 27%nat).
  { unfold s3. rewrite !str_length_app, length_spaces. cbn [String.length]. lia. }
  assert (L4 : String.length (a ++ s4) = 10%nat).
  { unfold s4. rewrite !str_length_app, length_spaces. cbn [String.length]. lia. }
  assert (E : ((i ++ Str.spaces (2 - String.length i)) ++ "  "
               ++ (date e ++ Str.spaces (10 - String.length (date e))) ++ " "
               ++ (description e ++ Str.spaces (26 - String.length (description e))) ++ " "
               ++ (a ++ Str.spaces (9 - String.length a)) ++ " " ++ category e
               = i ++ s1 ++ date e ++ s2 ++ description e ++ s3 ++ a ++ s4 ++ category e)%string).
  { unfold s1, s2, s3, s4. rewrite !str_app_assoc. reflexivity. }
  rewrite E. clear E.
  split; [split; [apply substring_whole | reflexivity]|].
  split; [split; [|reflexivity]|].
  { rewrite <- (str_app_assoc i s1). apply substring_at. exact L1. }
  split; [split; [|reflexivity]|].
  { rewrite <- (str_app_assoc i s1), <- (str_app_assoc (date e) s2),
      <- (str_app_assoc (i ++ s1)).
    apply substring_at. rewrite (str_length_app (i ++ s1)), L1, L2. reflexivity. }
  split; [split; [|reflexivity]|].
  { rewrite <- (str_app_assoc i s1), <- (str_app_assoc (date e) s2),
      <- (str_app_assoc (description e) s3), <- (str_app_assoc (date e ++ s2)),
      <- (str_app_assoc (i ++ s1)).
    apply substring_at.
    rewrite (str_length_app (i ++ s1)), (str_length_app (date e ++ s2)), L1, L2, L3.
    reflexivity. }
  split; [split; [|reflexivity]|].
  { rewrite <- (str_app_assoc i s1), <- (str_app_assoc (date e) s2),
      <- (str_app_assoc (description e) s3), <- (str_app_assoc a s4),
      <- (str_app_assoc (description e ++ s3)), <- (str_app_assoc (date e ++ s2)),
      <- (str_app_assoc (i ++ s1)).
    apply substring_last.
    rewrite (str_length_app (i ++ s1)), (str_length_app (date e ++ s2)),
      (str_length_app (description e ++ s3)), L1, L2, L3, L4.
    reflexivity. }
  rewrite <- (str_app_assoc i s1), <- (str_app_assoc (date e) s2),
    <- (str_app_assoc (description e) s3), <- (str_app_assoc a s4).
  rewrite (str_length_app (i ++ s1)), (str_length_app (date e ++ s2)),
    (str_length_app (description e ++ s3)), (str_length_app (a ++ s4)), L1, L2, L3, L4.
  reflexivity.
Qed.

(** Witness of X15: the row of the taxi ride. *)
Lemma list_rows_line_up_with_the_header_witness :
  String.substring 4 (String.length (date taxi)) (listRow taxi) = date taxi
  /\ String.substring 15 (String.length (description taxi)) (listRow taxi) = description taxi
  /\ String.substring 52 (String.length (category taxi)) (listRow taxi) = category taxi.
Proof.
  destruct (list_rows_line_up_with_the_header taxi)
    as (_ & (H2 & _) & (H3 & _) & _ & (H5 & _) & _).
  - split; reflexivity.
  - reflexivity.
  - apply Nat.leb_le; reflexivity.
  - apply Nat.leb_le; reflexivity.
  - apply Nat.leb_le; reflexivity.
  - apply Nat.leb_le; reflexivity.
  - split; [exact H2|]. split; [exact H3 | exact H5].
Defined.



Lemma month_index_eqb (m z : Z) :
  1 <= m <= 12 -> 1 <= z <= 12 ->
  Num.eqb (Num.add (Num.of_Z (m - 1)) Num.one) (Num.of_Z z) = (m =? z).
Proof.
  intros Hm Hz. rewrite one_is_of_Z, add_of_Z by (unfold safe; lia).
  rewrite eqb_of_Z by (unfold safe; lia).
  replace (m - 1 + 1) with m by lia. reflexivity.
Qed.

(** X17.  Where local time is behind UTC, the month filter of [summary] and
    [budget] reads every date one day early: a record dated the first of a
    month counts in the month before (and one of 1 January in December of
    the year before); records of the other days count in their month. *)
Theorem west_of_utc_the_first_counts_in_the_month_before (env : Env) (e : Expense)
  (y m d z : Z) :
  utcOffset env < 0 ->
  Cal.parseDateOnly (date e) = Some (y, m, d) ->
  1 <= z <= 12 ->
  inMonth env (Num.of_Z z) e =
  if 1 <? d then (y =? currentYear env) && (m =? z)
  else if 1 <? m then (y =? currentYear env) && (m - 1 =? z)
  else (y - 1 =? currentYear env) && (12 =? z).
Proof.
  intros Hoff Hp Hz. pose proof (parseDateOnly_month _ _ _ _ Hp) as Hm.
  unfold inMonth. rewrite Hp. unfold Cal.localDay, Cal.prev_day.
  replace (utcOffset env <? 0) with true by (symmetry; apply Z.ltb_lt; lia).
  destruct (Z.ltb_spec 1 d).
  - rewrite month_index_eqb by lia. reflexivity.
  - destruct (Z.ltb_spec 1 m).
    + rewrite month_index_eqb by lia. reflexivity.
    + rewrite (month_index_eqb 12 z) by lia. reflexivity.
Qed.

(** Witness of X17: five hours behind UTC, a record dated 2024-08-01 is in
    July and not in August. *)
Lemma west_of_utc_the_first_counts_in_the_month_before_witness :
  inMonth envWest (Num.of_Z 7) firstOfAugust = true
  /\ inMonth envWest (Num.of_Z 8) firstOfAugust = false.
Proof.
  assert (Hoff : utcOffset envWest < 0) by (cbn; lia).
  split.
  - exact (west_of_utc_the_first_counts_in_the_month_before
             envWest firstOfAugust 2024 8 1 7 Hoff eq_refl ltac:(lia)).
  - exact (west_of_utc_the_first_counts_in_the_month_before
             envWest firstOfAugust 2024 8 1 8 Hoff eq_refl ltac:(lia)).
Defined.

(** ** budget *)

(** The world after a successful [budget]. *)
Lemma setBudget_run (env : Env) (args : list string) (w : World) (m a : string) (z : Z) :
  getArgValue args "--month" = Some m -> m <> "" ->
  Conv.parseInt m = Num.of_Z z -> 1 <= z <= 12 ->
  getArgValue args "--amount" = Some a -> a <> "" ->
  validAmount a ->
  setBudget env args w =
  (Return tt,
   mkWorld (expensesFile w)
           (Stored (objSet (budgetKey env z) (Conv.parseFloat a) (budgets w)))
           (otherFiles w)
           (writes w ++ ["budgets.json"])
           (stdout w ++
            [("Budget set for " ++ nth (Z.to_nat (z - 1)) monthNames "" ++ ": "
              ++ formatCurrency (Conv.parseFloat a))%string;
             if Num.gtb (monthSpending env z w) (Conv.parseFloat a)
             then ("⚠️  WARNING: You have exceeded your budget by "
                   ++ formatCurrency (Num.sub (monthSpending env z w) (Conv.parseFloat a)))%string
             else ("💰 Remaining budget: "
                   ++ formatCurrency (Num.sub (Conv.parseFloat a) (monthSpending env z w)))%string])
           ((stderr w ++ budgetsError w) ++ loadError w)).
Proof.
  intros Hm Hm' Hp Hz Ha Ha' Hv.
  apply supplied_Some in Hm; [|exact Hm']. apply supplied_Some in Ha; [|exact Ha'].
  unfold setBudget. rewrite Hm, Ha, Hp, badMonth_of_Z by exact Hz.
  rewrite monthName_of_Z by exact Hz.
  cbv beta iota zeta delta [bind]. rewrite (validateAmount_ok a w Hv).
  unfold monthSpending, budgetKey, budgets, budgetsError, loadBudgets, loadError.
  destruct w as [ef bf ofs ws so se].
  cbn [expensesFile budgetsFile otherFiles writes stdout stderr].
  destruct bf as [|why|b];
    cbv beta iota zeta delta [bind ret log logError saveBudgets];
    cbn [fst snd expensesFile budgetsFile otherFiles writes stdout stderr];
    rewrite !loadExpenses_eq, !afterLoad_eq;
    cbn [fst snd expensesFile budgetsFile otherFiles writes stdout stderr];
    unfold store, loadError;
    cbn [expensesFile budgetsFile otherFiles writes stdout stderr];
    match goal with |- context [if ?c then _ else _] => destruct c end;
    cbv beta iota zeta delta [log];
    cbn [fst snd expensesFile budgetsFile otherFiles writes stdout stderr];
    rewrite <- ?app_assoc, ?app_nil_r; cbn [app]; reflexivity.
Qed.

Lemma objSet_objSet {V : Type} (k : string) (v1 v2 : V) (o : Obj V) :
  objSet k v2 (objSet k v1 o) = objSet k v2 o.
Proof.
  induction o as [|[k' x] o IH]; cbn [objSet].
  - rewrite String.eqb_refl. reflexivity.
  - destruct (String.eqb k' k) eqn:E; cbn [objSet]; rewrite E; [reflexivity|].
    rewrite IH. reflexivity.
Qed.

(** X18.  On a [budgets.json] whose numbers are finite, a [budget] with a
    month that parses to an integer [z] between 1 and 12 and an amount that
    parses to a finite number above zero succeeds: in [budgets.json] the key
    of month [z] of the current year holds the amount, every other key holds
    what it held, and [expenses.json] is not touched. *)
Theorem budget_records_the_amount (env : Env) (args : list string) (w : World)
  (m a : string) (z : Z) :
  getArgValue args "--month" = Some m -> m <> "" ->
  Conv.parseInt m = Num.of_Z z -> 1 <= z <= 12 ->
  getArgValue args "--amount" = Some a -> a <> "" ->
  validAmount a -> finite (Conv.parseFloat a) ->
  Forall (fun entry => finite (snd entry)) (budgets w) ->
  fst (setBudget env args w) = Return tt
  /\ objGet (budgetKey env z) (budgets (snd (setBudget env args w)))
     = Some (Conv.parseFloat a)
  /\ (forall k, k <> budgetKey env z ->
                objGet k (budgets (snd (setBudget env args w))) = objGet k (budgets w))
  /\ writes (snd (setBudget env args w)) = writes w ++ ["budgets.json"]
  /\ expensesFile (snd (setBudget env args w)) = expensesFile w.
Proof.
  intros Hm Hm' Hp Hz Ha Ha' Hv _ _.
  rewrite (setBudget_run env args w m a z Hm Hm' Hp Hz Ha Ha' Hv).
  cbn [fst snd]. unfold budgets at 1 2.
  cbn [expensesFile budgetsFile writes].
  split; [reflexivity|]. split; [apply objGet_objSet_same|].
  split; [|split; reflexivity].
  intros k Hk. apply objGet_objSet_other. exact Hk.
Qed.

(** Witness of X18: [budget --month 8 --amount 100]. *)
Lemma budget_records_the_amount_witness :
  fst (setBudget env0 budgetAugust (worldOf [lunch; taxi])) = Return tt
  /\ objGet (budgetKey env0 8) (budgets (snd (setBudget env0 budgetAugust (worldOf [lunch; taxi]))))
     = Some (Conv.parseFloat "100")
  /\ (forall k, k <> budgetKey env0 8 ->
                objGet k (budgets (snd (setBudget env0 budgetAugust (worldOf [lunch; taxi]))))
                = objGet k (budgets (worldOf [lunch; taxi])))
  /\ writes (snd (setBudget env0 budgetAugust (worldOf [lunch; taxi])))
     = writes (worldOf [lunch; taxi]) ++ ["budgets.json"]
  /\ expensesFile (snd (setBudget env0 budgetAugust (worldOf [lunch; taxi])))
     = expensesFile (worldOf [lunch; taxi]).
Proof.
  apply (budget_records_the_amount env0 budgetAugust (worldOf [lunch; taxi]) "8" "100" 8).
  - reflexivity.
  - nonempty.
  - reflexivity.
  - lia.
  - reflexivity.
  - nonempty.
  - reflexivity.
  - exact I.
  - constructor.
Defined.

(** X19.  Setting the budget of a month twice leaves [budgets.json] as setting
    it once, to the later amount, does; the month arguments need not be the
    same text, only to parse to the same month. *)
Theorem later_budget_replaces_earlier (env : Env) (args1 args2 : list string) (w : World)
  (m1 a1 m2 a2 : string) (z : Z) :
  1 <= z <= 12 ->
  getArgValue args1 "--month" = Some m1 -> m1 <> "" -> Conv.parseInt m1 = Num.of_Z z ->
  getArgValue args1 "--amount" = Some a1 -> a1 <> "" -> validAmount a1 ->
  getArgValue args2 "--month" = Some m2 -> m2 <> "" -> Conv.parseInt m2 = Num.of_Z z ->
  getArgValue args2 "--amount" = Some a2 -> a2 <> "" -> validAmount a2 ->
  budgetsFile (snd (setBudget env args2 (snd (setBudget env args1 w))))
  = budgetsFile (snd (setBudget env args2 w)).
Proof.
  intros Hz Hm1 Hm1' Hp1 Ha1 Ha1' Hv1 Hm2 Hm2' Hp2 Ha2 Ha2' Hv2.
  rewrite (setBudget_run env args1 w m1 a1 z Hm1 Hm1' Hp1 Hz Ha1 Ha1' Hv1).
  rewrite !(setBudget_run env args2 _ m2 a2 z Hm2 Hm2' Hp2 Hz Ha2 Ha2' Hv2).
  cbn [fst snd budgetsFile]. unfold budgets at 1. cbn [budgetsFile].
  rewrite objSet_objSet. reflexivity.
Qed.

(** Witness of X19: [--month 8 --amount 100], then [--month 08 --amount 250]. *)
Lemma later_budget_replaces_earlier_witness :
  budgetsFile (snd (setBudget env0 budgetAugustAgain
                              (snd (setBudget env0 budgetAugust (worldOf [lunch; taxi])))))
  = budgetsFile (snd (setBudget env0 budgetAugustAgain (worldOf [lunch; taxi]))).
Proof.
  apply (later_budget_replaces_earlier env0 budgetAugust budgetAugustAgain
                                       (worldOf [lunch; taxi]) "8" "100" "08" "250" 8).
  - lia.
  - reflexivity.
  - nonempty.
  - reflexivity.
  - reflexivity.
  - nonempty.
  - reflexivity.
  - reflexivity.
  - nonempty.
  - reflexivity.
  - reflexivity.
  - nonempty.
  - reflexivity.
Defined.



(** What that run prints, and the file it leaves. *)
Example budget_august_output :
  stdout (snd (setBudget env0 budgetAugust (worldOf [lunch; taxi]))) =
  [ "Budget set for August: $100";
    "💰 Remaining budget: $67.5" ]
  /\ budgetsFile (snd (setBudget env0 budgetAugust (worldOf [lunch; taxi])))
     = Stored [("2024-8", Conv.parseFloat "100")].
Proof. split; reflexivity. Qed.
